(** * emdeer.py: source code to markdown

    A shallow embedding of the two variants of [emdeer.py] kept in the
    repository,

    - [docs/implementing-tutorial/emdeer.py] (module [Impl]): block
      delimiters of the form [# [KEY] #], hide regions, blank-line stripping;
    - [docs/tutorial/emdeer.py] (module [Tutorial]): block delimiters
      starting with [@OUTPUT], no hide regions,

    and the properties of the output-block parser, the region extender, the
    transducer and the emitter's text path.

    Python 2 strings are byte strings: they are modelled by [string], lists
    of lines by [list string], the [outputBlocks] dictionary by
    [gmap string (list string)].  The two files are scripts: their module
    level loops become folds over explicit state records.  I/O (reading the
    files, running the compiler, the provenance trailer with its time stamp)
    is outside the model: the functions below take the lines read and return
    the lines written. *)

From Stdlib Require Import Ascii String.
From stdpp Require Import gmap strings list.

(** ** Python string primitives *)

Module Py.

(** [str.strip()] without argument removes the bytes for which C's
    [isspace] holds: tab, newline, vertical tab, form feed, carriage
    return and space; that is stdpp's [Ascii.is_space]. *)
Definition isspace (c : ascii) : bool := Ascii.is_space c.

(** [s.lstrip()] *)
Fixpoint lstrip (s : string) : string :=
  match s with
  | "" => ""
  | String c r => if isspace c then lstrip r else s
  end.

(** [s.rstrip()] *)
Fixpoint rstrip (s : string) : string :=
  match s with
  | "" => ""
  | String c r =>
      match rstrip r with
      | "" => if isspace c then "" else String c ""
      | r' => String c r'
      end
  end.

(** [s.strip()] *)
Definition strip (s : string) : string := rstrip (lstrip s).

(** [s[n:]] *)
Fixpoint drop (n : nat) (s : string) : string :=
  match n, s with
  | 0, _ => s
  | S _, "" => ""
  | S n', String _ r => drop n' r
  end.

(** [s[:-1]] *)
Fixpoint removelast (s : string) : string :=
  match s with
  | "" => ""
  | String c r => match r with "" => "" | _ => String c (removelast r) end
  end.

(** [s[1:-1]] *)
Definition slice_1_m1 (s : string) : string := removelast (drop 1 s).

(** [s.startswith(p)] *)
Definition startswith (s p : string) : bool := String.prefix p s.

(** [s.endswith(p)] *)
Definition endswith (s p : string) : bool :=
  Nat.leb (String.length p) (String.length s) &&
  String.eqb (drop (String.length s - String.length p) s) p.

(** [s.split(":")[0]]: the part of [s] before its first colon. *)
Fixpoint split_colon_0 (s : string) : string :=
  match s with
  | "" => ""
  | String c r => if Ascii.eqb c ":" then "" else String c (split_colon_0 r)
  end.

(** Truth value of a string in a condition: [if blockKey:]. *)
Definition truthy (s : string) : bool := negb (String.eqb s "").

(** Every byte of [s] is white space. *)
Fixpoint allspace (s : string) : bool :=
  match s with
  | "" => true
  | String c r => isspace c && allspace r
  end.

(** The byte [c] occurs in [s]. *)
Fixpoint occurs (c : ascii) (s : string) : Prop :=
  match s with
  | "" => False
  | String d r => c = d ∨ occurs c r
  end.

End Py.

(** ** Definitions shared by the two variants *)

(** [textPrefix = "/// "] *)
Definition textPrefix : string := "/// ".

(** [def isBlank(s): return (len(s.strip()) == 0)] *)
Definition isBlank (s : string) : bool := Nat.eqb (String.length (Py.strip s)) 0.

(** [codeBegin] and [codeEnd] *)
Definition codeBegin : string := "```c++".
Definition codeEnd : string := "```".

(** [def outputLine(s): outputFile.write(s+"\n")]: the output file is the
    list of the lines written so far. *)
Definition outputLine (s : string) (outputFile : list string) : list string :=
  outputFile ++ [s].

(** [stripBlankLines(xs)]: pops blank lines from the front, then from the
    back, of the list it is given, and returns that list. *)
Fixpoint pop_front_blank (xs : list string) : list string :=
  match xs with
  | [] => []
  | x :: r => if isBlank x then pop_front_blank r else xs
  end.

Fixpoint pop_back_blank (xs : list string) : list string :=
  match xs with
  | [] => []
  | x :: r =>
      match pop_back_blank r with
      | [] => if isBlank x then [] else [x]
      | r' => x :: r'
      end
  end.

Definition stripBlankLines (xs : list string) : list string :=
  pop_back_blank (pop_front_blank xs).

(** ** Region extender

    The two files share this code word for word; only the [isText] it calls
    differs, so it is a parameter here. *)

Section Extender.

Variable isText : string → bool.

(** [[
    def extendText(i, previousLineWasText):
        s = src[i]
        if isBlank(s) and previousLineWasText:
            src[i] = textPrefix # extend text to blank line
            return True
        else:
            return isText(s)
    ]]
    [src] is the global array of source lines; the function returns the
    array after the call together with its result.  [src[i]] raises
    [IndexError] out of range: [None]. *)
Definition extendText (i : nat) (previousLineWasText : bool)
    (src : list string) : option (list string * bool) :=
  s ← src !! i;
  if isBlank s && previousLineWasText
  then Some (<[i := textPrefix]> src, true)
  else Some (src, isText s).

(** [for i in indices: prevLineWasText = extendText(i, prevLineWasText)] *)
Fixpoint sweep (indices : list nat) (src : list string)
    (prevLineWasText : bool) : option (list string * bool) :=
  match indices with
  | [] => Some (src, prevLineWasText)
  | i :: rest =>
      '(src', flag) ← extendText i prevLineWasText src;
      sweep rest src' flag
  end.

(** [[
    prevLineWasText = True
    N = len(sourceLines)
    for i in range(0,N): # forward
        prevLineWasText = extendText(i, prevLineWasText)

    previousLineWasText = True # backward
    for i in range(N-1,-1,-1):
        prevLineWasText = extendText(i, prevLineWasText)
    ]]
    The assignment before the backward loop is to [previousLineWasText], a
    global that nothing reads ([extendText] has a parameter of that name,
    which hides it).  The backward loop therefore starts from the value
    that [prevLineWasText] has at the end of the forward loop. *)
Definition extendRegions (sourceLines : list string) : option (list string) :=
  let N := length sourceLines in
  '(src1, prevLineWasText) ← sweep (seq 0 N) sourceLines true;
  '(src2, _) ← sweep (rev (seq 0 N)) src1 prevLineWasText;
  Some src2.

(** The extension as the specification words it, for comparison: the
    flag is "reseeded true again for the backward pass". *)
Definition extendRegions_reseeded (sourceLines : list string)
    : option (list string) :=
  let N := length sourceLines in
  '(src1, _) ← sweep (seq 0 N) sourceLines true;
  '(src2, _) ← sweep (rev (seq 0 N)) src1 true;
  Some src2.

(** The two loops as list recursions: [forward flag l] is the forward loop
    over [l] started with [flag], [backward flag l] the backward one. *)
Fixpoint forward (flag : bool) (l : list string) : list string * bool :=
  match l with
  | [] => ([], flag)
  | s :: r =>
      if isBlank s && flag
      then let '(r', f) := forward true r in (textPrefix :: r', f)
      else let '(r', f) := forward (isText s) r in (s :: r', f)
  end.

Fixpoint backward (flag : bool) (l : list string) : list string * bool :=
  match l with
  | [] => ([], flag)
  | s :: r =>
      let '(r', f) := backward flag r in
      if isBlank s && f then (textPrefix :: r', true) else (s :: r', isText s)
  end.

(** Lists that a loop leaves as they are, and the flag it ends with. *)
Fixpoint forward_stable (flag : bool) (l : list string) : bool :=
  match l with
  | [] => true
  | s :: r => negb (isBlank s && flag) && forward_stable (isText s) r
  end.

Fixpoint endflag (flag : bool) (l : list string) : bool :=
  match l with
  | [] => flag
  | s :: r => endflag (isText s) r
  end.

Definition startflag (flag : bool) (l : list string) : bool :=
  match l with
  | [] => flag
  | s :: _ => isText s
  end.

Fixpoint backward_stable (flag : bool) (l : list string) : bool :=
  match l with
  | [] => true
  | s :: r => backward_stable flag r && negb (isBlank s && startflag flag r)
  end.

End Extender.

(** ** [docs/implementing-tutorial/emdeer.py] *)

Module Impl.

(** [[
    def isText(s):
       return s.startswith(textPrefix) or (s.strip() == textPrefix.strip())
    ]] *)
Definition isText (s : string) : bool :=
  Py.startswith s textPrefix || String.eqb (Py.strip s) (Py.strip textPrefix).

(** [def isCode(s): return not isText(s)] *)
Definition isCode (s : string) : bool := negb (isText s).

(** [[
    def stripTextPrefix(x):
        return s[len(textPrefix):]
    ]]
    The body does not use the parameter [x]: it slices [s], which is the
    module's global [s], the variable of the loop that is running. *)
Definition stripTextPrefix (s : string) (x : string) : string :=
  Py.drop (String.length textPrefix) s.

(** *** Output-block parser *)

Record parser := {
  outputBlocks : gmap string (list string);
  blockKey : string;
  blockLines : list string
}.

(** [stripped_s.startswith("# [") and stripped_s.endswith("] #")] *)
Definition isDelimiter (s : string) : bool :=
  let stripped_s := Py.strip s in
  Py.startswith stripped_s "# [" && Py.endswith stripped_s "] #".

(** [blockKey = s[1:-1].strip()] *)
Definition keyOf (s : string) : string := Py.strip (Py.slice_1_m1 s).

(** [[
    if blockKey: # flush previous block
        outputBlocks[blockKey] = stripBlankLines(blockLines)
    ]] *)
Definition flush (st : parser) : gmap string (list string) :=
  if Py.truthy (blockKey st)
  then <[blockKey st := stripBlankLines (blockLines st)]> (outputBlocks st)
  else outputBlocks st.

(** The body of [for s in programOutputLines:]. *)
Definition parseLine (st : parser) (s : string) : parser :=
  if isDelimiter s
  then {| outputBlocks := flush st; blockKey := keyOf s; blockLines := [] |}
  else {| outputBlocks := outputBlocks st; blockKey := blockKey st;
          blockLines := blockLines st ++ [s] |}.

Definition parser0 : parser :=
  {| outputBlocks := ∅; blockKey := ""; blockLines := [] |}.

(** The loop followed by the last flush: the final [outputBlocks]. *)
Definition parseOutput (programOutputLines : list string)
    : gmap string (list string) :=
  flush (fold_left parseLine programOutputLines parser0).

(** *** Emitter, text path *)

(** [[
    def outputText(s):
        ss = s.strip()
        if ss in outputBlocks:
            blockKey = ss
            b = outputBlocks[blockKey]
            outputLine(">"+blockKey+":")
            outputLine("> ```")
            for x in b:
                outputLine("> "+x)
            outputLine("> ```")
        else:
            outputLine(s)
    ]] *)
Definition outputText (outputBlocks : gmap string (list string))
    (s : string) (outputFile : list string) : list string :=
  let ss := Py.strip s in
  match outputBlocks !! ss with
  | Some b =>
      let blockKey := ss in
      let o1 := outputLine (">" +:+ blockKey +:+ ":") outputFile in
      let o2 := outputLine "> ```" o1 in
      let o3 := fold_left (λ o x, outputLine ("> " +:+ x) o) b o2 in
      outputLine "> ```" o3
  | None => outputLine s outputFile
  end.

(** *** Transducer *)

Definition isBeginHide (s : string) : bool :=
  String.eqb (Py.strip s) "MD_BEGIN_HIDE".

Definition isEndHide (s : string) : bool :=
  String.eqb (Py.strip s) "MD_END_HIDE".

(** The globals of the last loop; the state tags are the strings the
    script uses: ["text"], ["code"], ["hidden"], and [""] for
    [savedOutputting] before the first hide region. *)
Record transducer := {
  savedOutputting : string;
  isOutputting : string;
  outputFile : list string
}.

Definition transducer0 : transducer :=
  {| savedOutputting := ""; isOutputting := "text"; outputFile := [] |}.

(** The body of [for s in src:]. *)
Definition step (outputBlocks : gmap string (list string))
    (st : transducer) (s : string) : transducer :=
  if String.eqb (isOutputting st) "hidden" then
    if isEndHide s
    then {| savedOutputting := savedOutputting st;
            isOutputting := savedOutputting st;
            outputFile := outputFile st |}
    else st
  else if String.eqb (isOutputting st) "text" then
    if isBeginHide s
    then {| savedOutputting := isOutputting st;
            isOutputting := "hidden";
            outputFile := outputFile st |}
    else if isText s
    then {| savedOutputting := savedOutputting st;
            isOutputting := isOutputting st;
            outputFile :=
              outputText outputBlocks (stripTextPrefix s s) (outputFile st) |}
    else {| savedOutputting := savedOutputting st;
            isOutputting := "code";
            outputFile := outputLine s (outputLine codeBegin (outputFile st)) |}
  else (* "code" *)
    if isBeginHide s
    then {| savedOutputting := isOutputting st;
            isOutputting := "hidden";
            outputFile := outputFile st |}
    else if isCode s
    then {| savedOutputting := savedOutputting st;
            isOutputting := isOutputting st;
            outputFile := outputLine s (outputFile st) |}
    else {| savedOutputting := savedOutputting st;
            isOutputting := "text";
            outputFile :=
              outputText outputBlocks (stripTextPrefix s s)
                (outputLine codeEnd (outputFile st)) |}.

Definition run (outputBlocks : gmap string (list string))
    (st : transducer) (src : list string) : transducer :=
  fold_left (step outputBlocks) src st.

(** [if isOutputting == "code": outputLine(codeEnd)] *)
Definition finish (st : transducer) : list string :=
  if String.eqb (isOutputting st) "code"
  then outputLine codeEnd (outputFile st)
  else outputFile st.

(** The transducer: the loop over [src] and the close at end of stream. *)
Definition transduce (outputBlocks : gmap string (list string))
    (src : list string) : list string :=
  finish (run outputBlocks transducer0 src).

(** The script from the lines read to the lines written before the
    trailer. *)
Definition emdeer (programOutputLines sourceLines : list string)
    : option (list string) :=
  src ← extendRegions isText sourceLines;
  Some (transduce (parseOutput programOutputLines) src).

End Impl.

(** ** [docs/tutorial/emdeer.py] *)

Module Tutorial.

(** [def isText(s): return s.startswith(textPrefix)] *)
Definition isText (s : string) : bool := Py.startswith s textPrefix.

Definition isCode (s : string) : bool := negb (isText s).

(** [def stripPrefix(x): return s[len(textPrefix):]], with the global [s]
    as in the other variant. *)
Definition stripPrefix (s : string) (x : string) : string :=
  Py.drop (String.length textPrefix) s.

Record parser := {
  outputBlocks : gmap string (list string);
  blockKey : string;
  blockLines : list string
}.

(** [s.startswith("@OUTPUT")] *)
Definition isDelimiter (s : string) : bool := Py.startswith s "@OUTPUT".

(** [blockKey = s.split(":")[0]] *)
Definition keyOf (s : string) : string := Py.split_colon_0 s.

(** [[
    for s in programOutputLines:
        if s.startswith("@OUTPUT"):
            if blockKey: # flush previous block
                outputBlocks[blockKey] = blockLines
                blockLines = []
            blockKey = s.split(":")[0] # start new block
        blockLines.append(s)
    ]] *)
Definition parseLine (st : parser) (s : string) : parser :=
  let st1 :=
    if isDelimiter s then
      let st' :=
        if Py.truthy (blockKey st)
        then {| outputBlocks := <[blockKey st := blockLines st]> (outputBlocks st);
                blockKey := blockKey st;
                blockLines := [] |}
        else st in
      {| outputBlocks := outputBlocks st'; blockKey := keyOf s;
         blockLines := blockLines st' |}
    else st in
  {| outputBlocks := outputBlocks st1; blockKey := blockKey st1;
     blockLines := blockLines st1 ++ [s] |}.

Definition parser0 : parser :=
  {| outputBlocks := ∅; blockKey := ""; blockLines := [] |}.

(** [[
    if blockKey:
        outputBlocks[blockKey] = blockLines
    ]] *)
Definition flush (st : parser) : gmap string (list string) :=
  if Py.truthy (blockKey st)
  then <[blockKey st := blockLines st]> (outputBlocks st)
  else outputBlocks st.

Definition parseOutput (programOutputLines : list string)
    : gmap string (list string) :=
  flush (fold_left parseLine programOutputLines parser0).

(** [[
    def outputText(s):
        ss = s.strip()
        if ss in outputBlocks:
            b = outputBlocks[ss]
            outputLine("> ```")
            for x in b:
                outputLine("> "+x)
            outputLine("> ```")
        else:
            outputLine(s)
    ]] *)
Definition outputText (outputBlocks : gmap string (list string))
    (s : string) (outputFile : list string) : list string :=
  let ss := Py.strip s in
  match outputBlocks !! ss with
  | Some b =>
      let o1 := outputLine "> ```" outputFile in
      let o2 := fold_left (λ o x, outputLine ("> " +:+ x) o) b o1 in
      outputLine "> ```" o2
  | None => outputLine s outputFile
  end.

Record transducer := {
  isOutputting : string;
  outputFile : list string
}.

Definition transducer0 : transducer :=
  {| isOutputting := "text"; outputFile := [] |}.

Definition step (outputBlocks : gmap string (list string))
    (st : transducer) (s : string) : transducer :=
  if String.eqb (isOutputting st) "text" then
    if isText s
    then {| isOutputting := isOutputting st;
            outputFile :=
              outputText outputBlocks (stripPrefix s s) (outputFile st) |}
    else {| isOutputting := "code";
            outputFile := outputLine s (outputLine codeBegin (outputFile st)) |}
  else (* "code" *)
    if isCode s
    then {| isOutputting := isOutputting st;
            outputFile := outputLine s (outputFile st) |}
    else {| isOutputting := "text";
            outputFile :=
              outputText outputBlocks (stripPrefix s s)
                (outputLine codeEnd (outputFile st)) |}.

Definition run (outputBlocks : gmap string (list string))
    (st : transducer) (src : list string) : transducer :=
  fold_left (step outputBlocks) src st.

Definition finish (st : transducer) : list string :=
  if String.eqb (isOutputting st) "code"
  then outputLine codeEnd (outputFile st)
  else outputFile st.

Definition transduce (outputBlocks : gmap string (list string))
    (src : list string) : list string :=
  finish (run outputBlocks transducer0 src).

Definition emdeer (programOutputLines sourceLines : list string)
    : option (list string) :=
  src ← extendRegions isText sourceLines;
  Some (transduce (parseOutput programOutputLines) src).

End Tutorial.

(** ** Number of fence markers in an output *)

Definition count_line (m : string) (out : list string) : nat :=
  length (filter (λ x, x = m) out).

(** A source line that is no fence marker, neither as it is (the way a code
    line is written) nor without its first four bytes (the way a text line
    is written): in the output of a source with such lines only, the
    lines equal to a marker are the markers that the transducer wrote. *)
Definition no_marker (s : string) : Prop :=
  s ≠ codeBegin ∧ s ≠ codeEnd ∧
  Py.drop 4 s ≠ codeBegin ∧ Py.drop 4 s ≠ codeEnd.

(** The fences left open by the lines read so far: one in the code state,
    and one in a hide region that was entered from the code state. *)
Definition Impl_open_fences (st : Impl.transducer) : nat :=
  if String.eqb (Impl.isOutputting st) "code" then 1
  else if String.eqb (Impl.isOutputting st) "hidden" &&
          String.eqb (Impl.savedOutputting st) "code" then 1
  else 0.

Definition Tutorial_open_fences (st : Tutorial.transducer) : nat :=
  if String.eqb (Tutorial.isOutputting st) "code" then 1 else 0.

(** ** Reading and writing files, the trailer, the command line

    The rest of the two scripts, and [docs/tutorial/grip_hook.py].  A file
    is the byte string that [read()] returns or that the calls of [write]
    make up.  What [os.system] runs is outside the model: the text that
    the compiled program leaves in [a.output.txt] is an argument, and so is
    the time stamp. *)

(** [text.splitlines()] of a Python 2 byte string: a line ends at a line
    feed, at a carriage return, or at a carriage return followed by a line
    feed; the line ends are not kept, and a line end at the end of the
    text opens no further line.  [cur] is the line read so far. *)
Fixpoint splitlines_from (cur : string) (text : string) : list string :=
  match text with
  | "" => if Py.truthy cur then [cur] else []
  | String c r =>
      if Ascii.eqb c "010" then cur :: splitlines_from "" r
      else if Ascii.eqb c "013" then
        match r with
        | String d r' =>
            if Ascii.eqb d "010" then cur :: splitlines_from "" r'
            else cur :: splitlines_from "" r
        | "" => [cur]
        end
      else splitlines_from (cur +:+ String c "") r
  end.

Definition splitlines (text : string) : list string := splitlines_from "" text.

(** The text of the output file after [outputLine] has been called for each
    of [outputFile]: every call writes [s+"\n"]. *)
Definition file_text (outputFile : list string) : string :=
  foldr (λ s text, s +:+ String "010" text) "" outputFile.

(** A string with no line feed and no carriage return in it. *)
Definition no_line_end (s : string) : Prop :=
  ¬ Py.occurs "010" s ∧ ¬ Py.occurs "013" s.

(** [[
    outputLine("")
    outputLine("Generated from [`%s`](%s) by [`emdeer.py`](emdeer.py) at UTC %s"
               %(sourceFileName,sourceFileName,datetime.datetime.utcnow()))
    ]]
    [utcnow] is the time stamp as [%s] prints it. *)
Definition trailer (sourceFileName utcnow : string) : list string :=
  [""; "Generated from [`" +:+ sourceFileName +:+ "`](" +:+ sourceFileName
       +:+ ") by [`emdeer.py`](emdeer.py) at UTC " +:+ utcnow].

Section Script.

(** The file name that the script falls back to, and the script's work from
    the lines read to the lines written before the trailer. *)
Variable defaultSource : string.
Variable emdeer : list string → list string → option (list string).

(** [[
    if len(sys.argv) == 2:
        sourceFileName = sys.argv[1]
    else:
        print "usage: emdeer.py sourceFileName"
        #exit(-1)
        # debugging:
        sourceFileName = "..."
    ]] *)
Definition sourceFileName (argv : list string) : string :=
  match argv with
  | [_; a] => a
  | _ => defaultSource
  end.

Definition printed (argv : list string) : list string :=
  match argv with
  | [_; _] => []
  | _ => ["usage: emdeer.py sourceFileName"]
  end.

(** [outputFileName = sourceFileName + ".md"] *)
Definition outputFileName (argv : list string) : string :=
  sourceFileName argv +:+ ".md".

(** The script: the name of the file it writes and the text it writes to
    it, from the command line, the text of the source file, the text of
    [a.output.txt] and the time stamp.  [None] when a loop of the script
    raises an error. *)
Definition script (argv : list string) (sourceText programOutput utcnow : string)
    : option (string * string) :=
  let programOutputLines := splitlines programOutput in
  let sourceLines := splitlines sourceText in
  body ← emdeer programOutputLines sourceLines;
  Some (outputFileName argv,
        file_text (body ++ trailer (sourceFileName argv) utcnow)).

End Script.

Definition Impl_script := script "04-default-behavior.cpp" Impl.emdeer.
Definition Tutorial_script := script "01-boxed-function-pointer.cpp" Tutorial.emdeer.

(** [s[:n]] *)
Fixpoint str_take (n : nat) (s : string) : string :=
  match n, s with
  | S n', String c r => String c (str_take n' r)
  | _, _ => ""
  end.

(** [docs/tutorial/grip_hook.py]:
    [[
    markdownFileName = sys.argv[1]
    sourceFileName = markdownFileName[:-3] # strip .md extension
    if os.path.isfile(sourceFileName):
        os.system("emdeer.py "+ sourceFileName)
    ]]
    The result is the list of the commands that the hook runs, [None] when
    [sys.argv[1]] raises [IndexError]; [isfile] is [os.path.isfile]. *)
Definition grip_sourceFileName (markdownFileName : string) : string :=
  str_take (String.length markdownFileName - 3) markdownFileName.

Definition grip_hook (isfile : string → bool) (argv : list string)
    : option (list string) :=
  markdownFileName ← argv !! 1;
  let sourceFileName := grip_sourceFileName markdownFileName in
  Some (if isfile sourceFileName
        then ["emdeer.py " +:+ sourceFileName]
        else []).

(** * Lemmas *)

(** ** Strings *)

Section StringFacts.

Lemma str_app_cons c s t : String c s +:+ t = String c (s +:+ t).
Proof. reflexivity. Qed.

Lemma str_app_nil_l s : "" +:+ s = s.
Proof. reflexivity. Qed.

Lemma str_app_nil_r s : s +:+ "" = s.
Proof. induction s as [|c s IH]; [reflexivity|]. by rewrite str_app_cons, IH. Qed.

Lemma str_app_assoc s t u : (s +:+ t) +:+ u = s +:+ (t +:+ u).
Proof.
  induction s as [|c s IH]; [reflexivity|]. by rewrite !str_app_cons, IH.
Qed.

Lemma str_app_length s t :
  String.length (s +:+ t) = String.length s + String.length t.
Proof.
  induction s as [|c s IH]; [reflexivity|].
  rewrite str_app_cons. simpl. by rewrite IH.
Qed.

Lemma str_app_eq_nil s t : s +:+ t = "" → s = "" ∧ t = "".
Proof. destruct s; [by rewrite str_app_nil_l|]. by rewrite str_app_cons. Qed.

Lemma allspace_app s t :
  Py.allspace (s +:+ t) = Py.allspace s && Py.allspace t.
Proof.
  induction s as [|c s IH]; [reflexivity|].
  rewrite str_app_cons. simpl. rewrite IH. by rewrite andb_assoc.
Qed.

Lemma occurs_app c s t : Py.occurs c (s +:+ t) ↔ Py.occurs c s ∨ Py.occurs c t.
Proof.
  induction s as [|d s IH]; [rewrite str_app_nil_l; simpl; tauto|].
  rewrite str_app_cons. simpl. rewrite IH. tauto.
Qed.

Lemma occurs_allspace c s :
  Py.occurs c s → Py.isspace c = false → Py.allspace s = false.
Proof.
  induction s as [|d s IH]; simpl; [done|].
  intros [->|H] Hc; [by rewrite Hc|].
  rewrite (IH H Hc). apply andb_false_r.
Qed.

(** *** [lstrip], [rstrip], [strip] *)

Lemma lstrip_allspace s : Py.allspace s = true → Py.lstrip s = "".
Proof.
  induction s as [|c s IH]; simpl; [done|].
  intros [Hc Hs]%andb_true_iff. rewrite Hc. auto.
Qed.

Lemma rstrip_nil_iff s : Py.rstrip s = "" ↔ Py.allspace s = true.
Proof.
  induction s as [|c s IH]; simpl; [done|].
  destruct (Py.rstrip s) eqn:E.
  - destruct (Py.isspace c); simpl; [tauto|]. split; [done|done].
  - split; [done|]. intros [_ Hs]%andb_true_iff. apply IH in Hs. done.
Qed.

Lemma lstrip_decomp s : ∃ w, Py.allspace w = true ∧ s = w +:+ Py.lstrip s.
Proof.
  induction s as [|c s (w & Hw & IH)]; simpl.
  - by exists "".
  - destruct (Py.isspace c) eqn:Hc.
    + exists (String c w). simpl. rewrite Hc, Hw, str_app_cons. by rewrite <- IH.
    + by exists "".
Qed.

Lemma rstrip_decomp s : ∃ w, Py.allspace w = true ∧ s = Py.rstrip s +:+ w.
Proof.
  induction s as [|c s (w & Hw & IH)]; simpl.
  - by exists "".
  - destruct (Py.rstrip s) eqn:E.
    + rewrite str_app_nil_l in IH. subst w.
      destruct (Py.isspace c) eqn:Hc.
      * exists (String c s). simpl. by rewrite Hc, Hw.
      * exists s. done.
    + exists w. split; [done|]. rewrite str_app_cons. by rewrite <- IH.
Qed.

(** A string is its stripped form between two runs of white space. *)
Lemma strip_decomp s :
  ∃ w1 w2, Py.allspace w1 = true ∧ Py.allspace w2 = true ∧
           s = w1 +:+ Py.strip s +:+ w2.
Proof.
  destruct (lstrip_decomp s) as (w1 & H1 & E1).
  destruct (rstrip_decomp (Py.lstrip s)) as (w2 & H2 & E2).
  exists w1, w2. unfold Py.strip. by rewrite <- E2.
Qed.

Lemma strip_nil_iff s : Py.strip s = "" ↔ Py.allspace s = true.
Proof.
  split.
  - intros H. destruct (strip_decomp s) as (w1 & w2 & H1 & H2 & E).
    rewrite E, H, str_app_nil_l, allspace_app, H1, H2. done.
  - intros H. unfold Py.strip. by rewrite lstrip_allspace.
Qed.

Lemma rstrip_app_nonspace a c w :
  Py.isspace c = false → Py.allspace w = true →
  Py.rstrip (a +:+ String c w) = a +:+ String c "".
Proof.
  intros Hc Hw. induction a as [|d a IH].
  - rewrite !str_app_nil_l. simpl.
    apply rstrip_nil_iff in Hw. by rewrite Hw, Hc.
  - rewrite !str_app_cons. simpl. rewrite IH.
    destruct a; [by rewrite str_app_nil_l|by rewrite str_app_cons].
Qed.

(** A byte of the stripped string is a byte of the string; a byte that is
    not white space survives stripping. *)
Lemma occurs_strip_inv c s : Py.occurs c (Py.strip s) → Py.occurs c s.
Proof.
  intros H. destruct (strip_decomp s) as (w1 & w2 & _ & _ & E).
  rewrite E, !occurs_app. tauto.
Qed.

Lemma occurs_strip c s :
  Py.occurs c s → Py.isspace c = false → Py.occurs c (Py.strip s).
Proof.
  intros H Hc. destruct (strip_decomp s) as (w1 & w2 & H1 & H2 & E).
  rewrite E, !occurs_app in H. destruct H as [H|[H|H]]; [|done|].
  - by rewrite (occurs_allspace _ _ H Hc) in H1.
  - by rewrite (occurs_allspace _ _ H Hc) in H2.
Qed.

(** *** Slices *)

Lemma drop_app_length a b : Py.drop (String.length a) (a +:+ b) = b.
Proof. induction a as [|c a IH]; [by destruct b|]. by rewrite str_app_cons. Qed.

Lemma drop_length n s : String.length (Py.drop n s) = String.length s - n.
Proof.
  revert s. induction n as [|n IH]; intros s; [simpl; lia|].
  destruct s; simpl; [done|]. apply IH.
Qed.

Lemma occurs_drop_inv c n s : Py.occurs c (Py.drop n s) → Py.occurs c s.
Proof.
  revert s. induction n as [|n IH]; intros s; [done|].
  destruct s; simpl; [done|]. intros H. right. by apply IH.
Qed.

Lemma occurs_drop c n a b :
  n ≤ String.length a → Py.occurs c (Py.drop n (a +:+ String c b)).
Proof.
  revert a. induction n as [|n IH]; intros a Hn.
  - simpl. apply occurs_app. right. by left.
  - destruct a as [|d a]; simpl in Hn; [lia|].
    rewrite str_app_cons. simpl. apply IH. lia.
Qed.

Lemma removelast_app a c b :
  Py.removelast (a +:+ String c b) = a +:+ Py.removelast (String c b).
Proof.
  induction a as [|d a IH]; [done|].
  rewrite !str_app_cons. simpl. rewrite IH.
  destruct a; [by rewrite !str_app_nil_l|by rewrite !str_app_cons].
Qed.

Lemma removelast_snoc a c : Py.removelast (a +:+ String c "") = a.
Proof. rewrite removelast_app. simpl. apply str_app_nil_r. Qed.

Lemma prefix_app p s : String.prefix p (p +:+ s) = true.
Proof.
  induction p as [|c p IH]; [by destruct s|].
  rewrite str_app_cons. simpl. by destruct (Ascii.ascii_dec c c).
Qed.

Lemma prefix_inv p s : String.prefix p s = true → ∃ r, s = p +:+ r.
Proof.
  revert s. induction p as [|c p IH]; intros s H.
  - by exists s.
  - destruct s as [|d s]; simpl in H; [done|].
    destruct (Ascii.ascii_dec c d) as [->|]; [|done].
    destruct (IH _ H) as [r ->]. by exists r.
Qed.

Lemma truthy_true s : Py.truthy s = true ↔ s ≠ "".
Proof.
  unfold Py.truthy. rewrite negb_true_iff.
  destruct (String.eqb_spec s ""); split; congruence.
Qed.

Lemma isBlank_true s : isBlank s = true ↔ Py.strip s = "".
Proof.
  unfold isBlank. destruct (Py.strip s); simpl; split; congruence.
Qed.

End StringFacts.

(** ** Region extender *)

Section ExtenderFacts.

Variable isText : string → bool.
Hypothesis isText_textPrefix : isText textPrefix = true.
Hypothesis blank_not_text : ∀ s, isBlank s = true → isText s = false.

Lemma isBlank_textPrefix : isBlank textPrefix = false.
Proof. reflexivity. Qed.

(** *** The index loops are the list recursions *)

Lemma insert_middle (pre : list string) s x r :
  <[length pre := x]> (pre ++ s :: r) = pre ++ x :: r.
Proof. induction pre as [|y pre IH]; [done|]. simpl. by rewrite IH. Qed.

Lemma extendText_middle (pre : list string) s r flag :
  extendText isText (length pre) flag (pre ++ s :: r) =
  Some (if isBlank s && flag
        then (pre ++ textPrefix :: r, true)
        else (pre ++ s :: r, isText s)).
Proof.
  unfold extendText. rewrite list_lookup_middle by done. simpl.
  destruct (isBlank s && flag); [|done]. by rewrite insert_middle.
Qed.

Lemma sweep_app is1 is2 src flag :
  sweep isText (is1 ++ is2) src flag =
  '(src', flag') ← sweep isText is1 src flag; sweep isText is2 src' flag'.
Proof.
  revert src flag. induction is1 as [|i is1 IH]; intros src flag; simpl.
  - done.
  - destruct (extendText isText i flag src) as [[src' flag']|]; simpl; [|done].
    apply IH.
Qed.

Lemma sweep_forward (pre l : list string) flag :
  sweep isText (seq (length pre) (length l)) (pre ++ l) flag =
  Some (pre ++ (forward isText flag l).1, (forward isText flag l).2).
Proof.
  revert pre flag. induction l as [|s r IH]; intros pre flag; simpl.
  - done.
  - rewrite extendText_middle. simpl.
    destruct (isBlank s && flag); simpl.
    + specialize (IH (pre ++ [textPrefix]) true).
      rewrite length_app, Nat.add_1_r, <- app_assoc in IH. simpl in IH.
      rewrite IH. destruct (forward isText true r). simpl.
      by rewrite <- app_assoc.
    + specialize (IH (pre ++ [s]) (isText s)).
      rewrite length_app, Nat.add_1_r, <- app_assoc in IH. simpl in IH.
      rewrite IH. destruct (forward isText (isText s) r). simpl.
      by rewrite <- app_assoc.
Qed.

Lemma sweep_backward (pre l : list string) flag :
  sweep isText (rev (seq (length pre) (length l))) (pre ++ l) flag =
  Some (pre ++ (backward isText flag l).1, (backward isText flag l).2).
Proof.
  revert pre. induction l as [|s r IH]; intros pre; simpl.
  - done.
  - rewrite sweep_app.
    specialize (IH (pre ++ [s])).
    rewrite length_app, Nat.add_1_r, <- app_assoc in IH. simpl in IH.
    rewrite IH. simpl. destruct (backward isText flag r) as [r' f]. simpl.
    rewrite <- app_assoc. simpl. rewrite extendText_middle. simpl.
    by destruct (isBlank s && f).
Qed.

Lemma forward_length flag l : length (forward isText flag l).1 = length l.
Proof.
  revert flag. induction l as [|s r IH]; intros flag; simpl; [done|].
  destruct (isBlank s && flag).
  - specialize (IH true). destruct (forward isText true r). simpl in *. lia.
  - specialize (IH (isText s)). destruct (forward isText (isText s) r).
    simpl in *. lia.
Qed.

Lemma sweep_forward_all l flag :
  sweep isText (seq 0 (length l)) l flag = Some (forward isText flag l).
Proof.
  pose proof (sweep_forward [] l flag) as H. simpl in H. rewrite H.
  by destruct (forward isText flag l).
Qed.

Lemma sweep_backward_all l flag :
  sweep isText (rev (seq 0 (length l))) l flag = Some (backward isText flag l).
Proof.
  pose proof (sweep_backward [] l flag) as H. simpl in H. rewrite H.
  by destruct (backward isText flag l).
Qed.

Lemma extendRegions_eq l :
  extendRegions isText l =
  Some (backward isText (forward isText true l).2 (forward isText true l).1).1.
Proof.
  unfold extendRegions. rewrite sweep_forward_all.
  pose proof (forward_length true l) as Hlen.
  destruct (forward isText true l) as [l1 f1]. simpl in *.
  rewrite <- Hlen, sweep_backward_all.
  by destruct (backward isText f1 l1).
Qed.

Lemma extendRegions_reseeded_eq l :
  extendRegions_reseeded isText l =
  Some (backward isText true (forward isText true l).1).1.
Proof.
  unfold extendRegions_reseeded. rewrite sweep_forward_all.
  pose proof (forward_length true l) as Hlen.
  destruct (forward isText true l) as [l1 f1]. simpl in *.
  rewrite <- Hlen, sweep_backward_all.
  by destruct (backward isText true l1).
Qed.

(** *** Fixed points of the two loops *)

Lemma forward_stable_eq flag l :
  forward_stable isText flag l = true →
  forward isText flag l = (l, endflag isText flag l).
Proof.
  revert flag. induction l as [|s r IH]; intros flag; simpl; [done|].
  intros [H1 H2]%andb_true_iff. apply negb_true_iff in H1. rewrite H1.
  by rewrite (IH _ H2).
Qed.

Lemma forward_is_stable flag l :
  forward_stable isText flag (forward isText flag l).1 = true.
Proof.
  revert flag. induction l as [|s r IH]; intros flag; simpl; [done|].
  destruct (isBlank s && flag) eqn:E.
  - specialize (IH true). destruct (forward isText true r). simpl in *.
    by rewrite isText_textPrefix, IH.
  - specialize (IH (isText s)). destruct (forward isText (isText s) r).
    simpl in *. by rewrite E, IH.
Qed.

Lemma forward_endflag flag l :
  (forward isText flag l).2 = endflag isText flag (forward isText flag l).1.
Proof.
  revert flag. induction l as [|s r IH]; intros flag; simpl; [done|].
  destruct (isBlank s && flag).
  - specialize (IH true). destruct (forward isText true r). simpl in *.
    by rewrite isText_textPrefix.
  - specialize (IH (isText s)). by destruct (forward isText (isText s) r).
Qed.

Lemma backward_length flag l : length (backward isText flag l).1 = length l.
Proof.
  induction l as [|s r IH]; simpl; [done|].
  destruct (backward isText flag r) as [r' f]. simpl in *.
  destruct (isBlank s && f); simpl; lia.
Qed.

Lemma backward_startflag flag l :
  (backward isText flag l).2 = startflag isText flag (backward isText flag l).1.
Proof.
  destruct l as [|s r]; simpl; [done|].
  destruct (backward isText flag r) as [r' f].
  destruct (isBlank s && f); simpl; [by rewrite isText_textPrefix|done].
Qed.

Lemma backward_stable_eq flag l :
  backward_stable isText flag l = true →
  backward isText flag l = (l, startflag isText flag l).
Proof.
  induction l as [|s r IH]; simpl; [done|].
  intros [H1 H2]%andb_true_iff. rewrite (IH H1).
  apply negb_true_iff in H2. by rewrite H2.
Qed.

Lemma backward_is_stable flag l :
  backward_stable isText flag (backward isText flag l).1 = true.
Proof.
  induction l as [|s r IH]; simpl; [done|].
  pose proof (backward_startflag flag r) as Hf.
  destruct (backward isText flag r) as [r' f]. simpl in *.
  destruct (isBlank s && f) eqn:E; simpl; rewrite IH; simpl.
  - by rewrite ?isBlank_textPrefix.
  - by rewrite <- Hf, E.
Qed.

(** The backward loop does not undo the work of the forward loop. *)
Lemma backward_keeps_forward_stable g f l :
  forward_stable isText g l = true →
  forward_stable isText g (backward isText f l).1 = true.
Proof.
  revert g. induction l as [|s r IH]; intros g; simpl; [done|].
  intros [H1 H2]%andb_true_iff.
  pose proof (backward_startflag f r) as Hf.
  specialize (IH _ H2).
  destruct (backward isText f r) as [r' f']. simpl in *.
  destruct (isBlank s && f') eqn:E; simpl.
  - rewrite ?isBlank_textPrefix, isText_textPrefix. simpl.
    apply andb_true_iff in E as [Hs ->].
    rewrite (blank_not_text _ Hs) in IH.
    destruct r' as [|x t]; [done|]. simpl in *.
    destruct (isBlank x) eqn:Hx.
    + by rewrite (blank_not_text _ Hx) in Hf.
    + by rewrite andb_false_r in IH.
  - by rewrite H1, IH.
Qed.

Lemma endflag_cons g g' x t :
  endflag isText g (x :: t) = endflag isText g' (x :: t).
Proof. done. Qed.

(** Started from the flag the forward loop ends with, the backward loop
    leaves the last line, and so that flag, as they are. *)
Lemma endflag_backward g l :
  endflag isText g (backward isText (endflag isText g l) l).1 =
  endflag isText g l.
Proof.
  revert g. induction l as [|s r IH]; intros g; simpl; [done|].
  specialize (IH (isText s)).
  pose proof (backward_length (endflag isText (isText s) r) r) as Hlen.
  destruct (backward isText (endflag isText (isText s) r) r) as [r' f] eqn:E.
  simpl in *.
  destruct (isBlank s && f) eqn:Hc; simpl; [|done].
  apply andb_true_iff in Hc as [Hs ->].
  destruct r' as [|x t].
  - destruct r; [|done]. simpl in *. injection E as E.
    by rewrite (blank_not_text _ Hs) in E.
  - by rewrite <- IH.
Qed.

(** The extension as the script runs it is idempotent. *)
Lemma extendRegions_idempotent l l' :
  extendRegions isText l = Some l' → extendRegions isText l' = Some l'.
Proof.
  rewrite !extendRegions_eq. intros [= <-].
  pose proof (forward_is_stable true l) as Hst.
  pose proof (forward_endflag true l) as Hend.
  destruct (forward isText true l) as [l1 f1]. simpl in *. subst f1.
  pose proof (backward_keeps_forward_stable true
                (endflag isText true l1) l1 Hst) as Hst2.
  rewrite (forward_stable_eq _ _ Hst2). simpl.
  rewrite endflag_backward.
  by rewrite (backward_stable_eq _ _ (backward_is_stable _ _)).
Qed.

(** So is the extension with the flag set again before the backward
    loop. *)
Lemma extendRegions_reseeded_idempotent l l' :
  extendRegions_reseeded isText l = Some l' →
  extendRegions_reseeded isText l' = Some l'.
Proof.
  rewrite !extendRegions_reseeded_eq. intros [= <-].
  pose proof (forward_is_stable true l) as Hst.
  destruct (forward isText true l) as [l1 f1]. simpl in *.
  pose proof (backward_keeps_forward_stable true true l1 Hst) as Hst2.
  rewrite (forward_stable_eq _ _ Hst2). simpl.
  by rewrite (backward_stable_eq _ _ (backward_is_stable _ _)).
Qed.

(** Both always return: the loops stay within the array. *)
Lemma extendRegions_total l : is_Some (extendRegions isText l).
Proof. rewrite extendRegions_eq. eauto. Qed.

End ExtenderFacts.

(** ** Line classifier *)

Section Classifier.

Lemma startswith_textPrefix_not_blank s :
  Py.startswith s textPrefix = true → isBlank s = false.
Proof.
  intros [r ->]%prefix_inv.
  destruct (isBlank _) eqn:E; [|done].
  apply isBlank_true, strip_nil_iff in E.
  rewrite allspace_app in E. done.
Qed.

Lemma Impl_isText_textPrefix : Impl.isText textPrefix = true.
Proof. reflexivity. Qed.

Lemma Impl_blank_not_text s : isBlank s = true → Impl.isText s = false.
Proof.
  intros H. unfold Impl.isText. apply orb_false_iff. split.
  - destruct (Py.startswith s textPrefix) eqn:E; [|done].
    by rewrite (startswith_textPrefix_not_blank _ E) in H.
  - apply isBlank_true in H. by rewrite H.
Qed.

Lemma Tutorial_isText_textPrefix : Tutorial.isText textPrefix = true.
Proof. reflexivity. Qed.

Lemma Tutorial_blank_not_text s : isBlank s = true → Tutorial.isText s = false.
Proof.
  intros H. unfold Tutorial.isText.
  destruct (Py.startswith s textPrefix) eqn:E; [|done].
  by rewrite (startswith_textPrefix_not_blank _ E) in H.
Qed.

(** A hide-begin line is not a hide-end line. *)
Lemma beginHide_not_endHide s :
  Impl.isBeginHide s = true → Impl.isEndHide s = false.
Proof.
  unfold Impl.isBeginHide, Impl.isEndHide.
  intros ->%String.eqb_eq. reflexivity.
Qed.

End Classifier.

(** ** Output-block parser, [# [KEY] #] delimiters *)

Section ImplParser.

Import Impl.

(** The key a delimiter line opens contains the opening bracket: it is
    not empty, and no white space only. *)
Lemma occurs_slice_1_m1 x a c d b :
  Py.occurs c (Py.slice_1_m1 (String x a +:+ String c (String d b))).
Proof.
  unfold Py.slice_1_m1. rewrite str_app_cons. simpl Py.drop.
  rewrite removelast_app. apply occurs_app. right.
  simpl. by left.
Qed.

Lemma keyOf_occurs s : isDelimiter s = true → Py.occurs "[" (keyOf s).
Proof.
  unfold isDelimiter, keyOf. intros [H1 H2]%andb_true_iff.
  apply prefix_inv in H1 as [r Hr].
  destruct r as [|d r'].
  { rewrite Hr in H2. done. }
  destruct (strip_decomp s) as (w1 & w2 & _ & _ & E).
  rewrite Hr in E. apply occurs_strip; [|done].
  rewrite E.
  destruct w1 as [|x w1].
  - rewrite str_app_nil_l.
    change (("# [" +:+ String d r') +:+ w2)
      with (String "#" " " +:+ String "[" (String d (r' +:+ w2))).
    apply occurs_slice_1_m1.
  - replace (String x w1 +:+ ("# [" +:+ String d r') +:+ w2)
      with (String x (w1 +:+ "# ") +:+ String "[" (String d (r' +:+ w2))).
    + apply occurs_slice_1_m1.
    + rewrite !str_app_cons. f_equal.
      by rewrite !str_app_assoc.
Qed.

Lemma keyOf_nonempty s : isDelimiter s = true → keyOf s ≠ "".
Proof. intros H%keyOf_occurs E. by rewrite E in H. Qed.

Lemma keyOf_truthy s : isDelimiter s = true → Py.truthy (keyOf s) = true.
Proof. intros H. by apply truthy_true, keyOf_nonempty. Qed.

(** The delimiter line [# [KEY] #], written without white space around
    it, is recognised for every [KEY] and opens the key [[KEY]]. *)
Lemma strip_bracket k :
  Py.strip ("# [" +:+ k +:+ "] #") = "# [" +:+ k +:+ "] #".
Proof.
  unfold Py.strip.
  change (Py.lstrip ("# [" +:+ k +:+ "] #")) with ("# [" +:+ k +:+ "] #").
  assert ("# [" +:+ k +:+ "] #" = ("# [" +:+ k +:+ "] ") +:+ String "#" "")
    as -> by (by rewrite !str_app_assoc).
  by rewrite rstrip_app_nonspace.
Qed.

Lemma isDelimiter_bracket k : isDelimiter ("# [" +:+ k +:+ "] #") = true.
Proof.
  unfold isDelimiter. rewrite strip_bracket.
  apply andb_true_iff. split.
  - unfold Py.startswith. apply prefix_app.
  - unfold Py.endswith.
    assert ("# [" +:+ k +:+ "] #" = ("# [" +:+ k) +:+ "] #")
      as -> by (by rewrite !str_app_assoc).
    rewrite str_app_length. simpl (String.length "] #").
    apply andb_true_iff. split; [apply Nat.leb_le; lia|].
    replace (String.length ("# [" +:+ k) + 3 - 3)
      with (String.length ("# [" +:+ k)) by lia.
    by rewrite drop_app_length.
Qed.

Lemma keyOf_bracket k : keyOf ("# [" +:+ k +:+ "] #") = "[" +:+ k +:+ "]".
Proof.
  unfold keyOf, Py.slice_1_m1.
  change (Py.drop 1 ("# [" +:+ k +:+ "] #")) with (" [" +:+ k +:+ "] #").
  assert (" [" +:+ k +:+ "] #" = (" [" +:+ k +:+ "] ") +:+ String "#" "")
    as -> by (by rewrite !str_app_assoc).
  rewrite removelast_snoc. unfold Py.strip.
  change (Py.lstrip (" [" +:+ k +:+ "] ")) with ("[" +:+ k +:+ "] ").
  assert ("[" +:+ k +:+ "] " = ("[" +:+ k) +:+ String "]" " ")
    as -> by (by rewrite !str_app_assoc).
  rewrite rstrip_app_nonspace by done.
  by rewrite !str_app_assoc.
Qed.

(** *** Runs of the parser loop *)

Ltac reassoc := repeat (rewrite <- app_assoc; simpl).

Lemma pop_front_blank_Forall (P : string → Prop) xs :
  Forall P xs → Forall P (pop_front_blank xs).
Proof.
  induction 1 as [|x r Hx Hr IH]; simpl; [done|].
  destruct (isBlank x); [done|by constructor].
Qed.

Lemma pop_back_blank_Forall (P : string → Prop) xs :
  Forall P xs → Forall P (pop_back_blank xs).
Proof.
  induction 1 as [|x r Hx Hr IH]; simpl; [done|].
  destruct (pop_back_blank r).
  - destruct (isBlank x); [done|by constructor].
  - by constructor.
Qed.

Lemma stripBlankLines_Forall (P : string → Prop) xs :
  Forall P xs → Forall P (stripBlankLines xs).
Proof. intros H. by apply pop_back_blank_Forall, pop_front_blank_Forall. Qed.

Lemma parseLine_delim st d :
  isDelimiter d = true →
  parseLine st d =
  {| outputBlocks := flush st; blockKey := keyOf d; blockLines := [] |}.
Proof. intros H. unfold parseLine. by rewrite H. Qed.

Lemma parse_nondelim st mid :
  Forall (λ x, isDelimiter x = false) mid →
  fold_left parseLine mid st =
  {| outputBlocks := outputBlocks st; blockKey := blockKey st;
     blockLines := blockLines st ++ mid |}.
Proof.
  intros H. revert st. induction H as [|x r Hx Hr IH]; intros st; simpl.
  - rewrite app_nil_r. by destruct st.
  - rewrite IH. unfold parseLine. rewrite Hx. simpl.
    by rewrite <- app_assoc.
Qed.

(** A stored block stays as it is while its key is not opened again. *)
Lemma parse_keep k v rest st :
  outputBlocks st !! k = Some v → blockKey st ≠ k →
  Forall (λ x, isDelimiter x = true → keyOf x ≠ k) rest →
  flush (fold_left parseLine rest st) !! k = Some v.
Proof.
  intros Hv Hk H. revert st Hv Hk.
  induction H as [|x r Hx Hr IH]; intros st Hv Hk; simpl.
  - unfold flush. destruct (Py.truthy (blockKey st)); [|done].
    by rewrite lookup_insert_ne.
  - apply IH; unfold parseLine; destruct (isDelimiter x) eqn:E; simpl; auto.
    unfold flush. destruct (Py.truthy (blockKey st)); [|done].
    by rewrite lookup_insert_ne.
Qed.

Lemma Impl_last_wins pre d mid post :
  isDelimiter d = true →
  Forall (λ x, isDelimiter x = false) mid →
  (post = [] ∨ ∃ d' post', post = d' :: post' ∧ isDelimiter d' = true) →
  Forall (λ x, isDelimiter x = true → keyOf x ≠ keyOf d) post →
  parseOutput (pre ++ d :: mid ++ post) !! keyOf d =
  Some (stripBlankLines mid).
Proof.
  intros Hd Hmid Hpost Hlast. unfold parseOutput.
  rewrite fold_left_app. simpl fold_left.
  rewrite fold_left_app, (parse_nondelim _ _ Hmid).
  rewrite (parseLine_delim _ _ Hd). simpl.
  destruct Hpost as [->|(d' & post' & -> & Hd')]; simpl.
  - unfold flush. simpl. rewrite (keyOf_truthy _ Hd).
    by rewrite lookup_insert_eq.
  - apply Forall_cons in Hlast as [Hd'k Hlast].
    rewrite (parseLine_delim _ _ Hd').
    apply parse_keep; simpl; [|by auto|done].
    unfold flush. simpl. rewrite (keyOf_truthy _ Hd).
    by rewrite lookup_insert_eq.
Qed.

(** What the loop has stored, and the block it has open, after the
    lines [seen]. *)
Lemma Impl_parse_inv seen :
  let st := fold_left parseLine seen parser0 in
  (blockKey st = "" ∨
   ∃ pre d, seen = pre ++ d :: blockLines st ∧ isDelimiter d = true ∧
            keyOf d = blockKey st ∧
            Forall (λ x, isDelimiter x = false) (blockLines st)) ∧
  (∀ k b, outputBlocks st !! k = Some b →
     ∃ pre d mid d' post,
       seen = pre ++ d :: mid ++ d' :: post ∧ isDelimiter d = true ∧
       keyOf d = k ∧ Forall (λ x, isDelimiter x = false) mid ∧
       isDelimiter d' = true ∧ b = stripBlankLines mid).
Proof.
  induction seen as [|x seen IH] using rev_ind; simpl.
  - split; [by left|]. intros k b. by rewrite lookup_empty.
  - rewrite fold_left_app. simpl.
    set (st := fold_left parseLine seen parser0) in *.
    destruct IH as [IHa IHb]. unfold parseLine.
    destruct (isDelimiter x) eqn:Hx; simpl.
    + split.
      { right. exists seen, x. repeat split; auto. }
      intros k b. unfold flush.
      destruct (Py.truthy (blockKey st)) eqn:Ht.
      * destruct (decide (blockKey st = k)) as [<-|Hne].
        -- rewrite lookup_insert_eq. intros [= <-].
           apply truthy_true in Ht.
           destruct IHa as [?|(pre & d & E & Hd & Hk & Hl)]; [done|].
           exists pre, d, (blockLines st), x, [].
           split; [|done]. rewrite E at 1. by reassoc.
        -- rewrite lookup_insert_ne by done. intros Hb.
           destruct (IHb _ _ Hb) as (pre & d & mid & d' & post & E & H).
           exists pre, d, mid, d', (post ++ [x]). split; [|done].
           rewrite E. by reassoc.
      * intros Hb.
        destruct (IHb _ _ Hb) as (pre & d & mid & d' & post & E & H).
        exists pre, d, mid, d', (post ++ [x]). split; [|done].
        rewrite E. by reassoc.
    + split.
      * destruct IHa as [?|(pre & d & E & Hd & Hk & Hl)]; [by left|].
        right. exists pre, d. split; [|split; [done|split; [done|]]].
        -- rewrite E at 1. by reassoc.
        -- apply Forall_app. split; [done|]. by constructor.
      * intros k b Hb.
        destruct (IHb _ _ Hb) as (pre & d & mid & d' & post & E & H).
        exists pre, d, mid, d', (post ++ [x]). split; [|done].
        rewrite E. by reassoc.
Qed.

(** Every stored block is the stripped run of lines between a delimiter
    line that opens its key and the next delimiter line or the end. *)
Lemma Impl_stored_block lines k b :
  parseOutput lines !! k = Some b →
  ∃ pre d mid post,
    lines = pre ++ d :: mid ++ post ∧ isDelimiter d = true ∧ keyOf d = k ∧
    Forall (λ x, isDelimiter x = false) mid ∧
    (post = [] ∨ ∃ d' post', post = d' :: post' ∧ isDelimiter d' = true) ∧
    b = stripBlankLines mid.
Proof.
  unfold parseOutput. destruct (Impl_parse_inv lines) as [Ha Hb].
  set (st := fold_left parseLine lines parser0) in *.
  unfold flush. destruct (Py.truthy (blockKey st)) eqn:Ht.
  - destruct (decide (blockKey st = k)) as [<-|Hne].
    + rewrite lookup_insert_eq. intros [= <-]. apply truthy_true in Ht.
      destruct Ha as [?|(pre & d & E & Hd & Hk & Hl)]; [done|].
      exists pre, d, (blockLines st), []. rewrite app_nil_r. auto 10.
    + rewrite lookup_insert_ne by done. intros H.
      destruct (Hb _ _ H) as (pre & d & mid & d' & post & E & ? & ? & ? & ? & ?).
      exists pre, d, mid, (d' :: post). eauto 10.
  - intros H.
    destruct (Hb _ _ H) as (pre & d & mid & d' & post & E & ? & ? & ? & ? & ?).
    exists pre, d, mid, (d' :: post). eauto 10.
Qed.



Lemma Impl_key_occurs lines k b :
  parseOutput lines !! k = Some b → Py.occurs "[" k.
Proof.
  intros (pre & d & mid & post & _ & Hd & <- & _)%Impl_stored_block.
  by apply keyOf_occurs.
Qed.

End ImplParser.

(** ** Output-block parser, [@OUTPUT] delimiters *)

Section TutorialParser.

Import Tutorial.

Ltac reassoc := repeat (rewrite <- app_assoc; simpl).

Lemma Tutorial_keyOf_occurs s :
  isDelimiter s = true → Py.occurs "@" (keyOf s).
Proof.
  unfold isDelimiter, keyOf. intros [r ->]%prefix_inv. simpl. by left.
Qed.

Lemma Tutorial_keyOf_truthy s :
  isDelimiter s = true → Py.truthy (keyOf s) = true.
Proof.
  intros H%Tutorial_keyOf_occurs. apply truthy_true. intros E.
  by rewrite E in H.
Qed.

Lemma Tutorial_parse_nondelim st mid :
  Forall (λ x, isDelimiter x = false) mid →
  fold_left parseLine mid st =
  {| outputBlocks := outputBlocks st; blockKey := blockKey st;
     blockLines := blockLines st ++ mid |}.
Proof.
  intros H. revert st. induction H as [|x r Hx Hr IH]; intros st; simpl.
  - rewrite app_nil_r. by destruct st.
  - rewrite IH. unfold parseLine. rewrite Hx. simpl. by reassoc.
Qed.

Lemma Tutorial_parseLine_delim st d :
  isDelimiter d = true →
  parseLine st d =
  if Py.truthy (blockKey st)
  then {| outputBlocks := <[blockKey st := blockLines st]> (outputBlocks st);
          blockKey := keyOf d; blockLines := [d] |}
  else {| outputBlocks := outputBlocks st; blockKey := keyOf d;
          blockLines := blockLines st ++ [d] |}.
Proof.
  intros H. unfold parseLine. rewrite H.
  by destruct (Py.truthy (blockKey st)).
Qed.

(** Once a delimiter line has been read, a block is open. *)
Lemma Tutorial_open_stays st l :
  Py.truthy (blockKey st) = true →
  Py.truthy (blockKey (fold_left parseLine l st)) = true.
Proof.
  revert st. induction l as [|x l IH]; intros st H; simpl; [done|].
  apply IH. unfold parseLine.
  destruct (isDelimiter x) eqn:E; simpl; [|done].
  by apply Tutorial_keyOf_truthy.
Qed.

Lemma Tutorial_open_after st l :
  forallb (λ x, negb (isDelimiter x)) l = false →
  Py.truthy (blockKey (fold_left parseLine l st)) = true.
Proof.
  revert st. induction l as [|x l IH]; intros st; simpl; [done|].
  destruct (isDelimiter x) eqn:E; simpl.
  - intros _. apply Tutorial_open_stays.
    unfold parseLine. rewrite E. simpl. by apply Tutorial_keyOf_truthy.
  - apply IH.
Qed.

Lemma Tutorial_parse_keep k v rest st :
  outputBlocks st !! k = Some v → blockKey st ≠ k →
  Forall (λ x, isDelimiter x = true → keyOf x ≠ k) rest →
  flush (fold_left parseLine rest st) !! k = Some v.
Proof.
  intros Hv Hk H. revert st Hv Hk.
  induction H as [|x r Hx Hr IH]; intros st Hv Hk; simpl.
  - unfold flush. destruct (Py.truthy (blockKey st)); [|done].
    by rewrite lookup_insert_ne.
  - apply IH; unfold parseLine; destruct (isDelimiter x) eqn:E; simpl; auto.
    destruct (Py.truthy (blockKey st)); simpl; [|done].
    by rewrite lookup_insert_ne.
Qed.

(** The block stored for a key is the one its last delimiter line
    opened: that line and the lines after it up to the next delimiter
    line, and before them, for the first delimiter line of the output,
    the lines that precede it. *)
Lemma Tutorial_last_wins pre d mid post :
  isDelimiter d = true →
  Forall (λ x, isDelimiter x = false) mid →
  (post = [] ∨ ∃ d' post', post = d' :: post' ∧ isDelimiter d' = true) →
  Forall (λ x, isDelimiter x = true → keyOf x ≠ keyOf d) post →
  parseOutput (pre ++ d :: mid ++ post) !! keyOf d =
  Some ((if forallb (λ x, negb (isDelimiter x)) pre then pre else [])
        ++ d :: mid).
Proof.
  intros Hd Hmid Hpost Hlast. unfold parseOutput.
  rewrite fold_left_app. simpl fold_left.
  rewrite fold_left_app, (Tutorial_parse_nondelim _ _ Hmid).
  rewrite (Tutorial_parseLine_delim _ _ Hd).
  set (c := (if forallb _ pre then pre else []) ++ d :: mid).
  assert (∃ m,
    (if Py.truthy (blockKey (fold_left parseLine pre parser0))
     then {| outputBlocks :=
               <[blockKey (fold_left parseLine pre parser0) :=
                   blockLines (fold_left parseLine pre parser0)]>
                 (outputBlocks (fold_left parseLine pre parser0));
             blockKey := keyOf d; blockLines := [d] |}
     else {| outputBlocks := outputBlocks (fold_left parseLine pre parser0);
             blockKey := keyOf d;
             blockLines :=
               blockLines (fold_left parseLine pre parser0) ++ [d] |}) =
    {| outputBlocks := m; blockKey := keyOf d;
       blockLines := (if forallb (λ x, negb (isDelimiter x)) pre
                      then pre else []) ++ [d] |}) as [m ->].
  { destruct (forallb (λ x, negb (isDelimiter x)) pre) eqn:E.
    - assert (Forall (λ x, isDelimiter x = false) pre) as Hpre.
      { apply Forall_forall. intros x Hx.
        rewrite forallb_forall in E. apply negb_true_iff, E.
        by apply list_elem_of_In. }
      rewrite (Tutorial_parse_nondelim _ _ Hpre). simpl. eauto.
    - rewrite (Tutorial_open_after parser0 _ E). simpl. eauto. }
  simpl. replace (((if forallb (λ x, negb (isDelimiter x)) pre
                    then pre else []) ++ [d]) ++ mid) with c
    by (subst c; by reassoc).
  destruct Hpost as [->|(d' & post' & -> & Hd')]; simpl.
  - unfold flush. simpl. rewrite (Tutorial_keyOf_truthy _ Hd).
    by rewrite lookup_insert_eq.
  - apply Forall_cons in Hlast as [Hd'k Hlast].
    rewrite (Tutorial_parseLine_delim _ _ Hd'). simpl.
    rewrite (Tutorial_keyOf_truthy _ Hd).
    apply Tutorial_parse_keep; simpl; [|by auto|done].
    by rewrite lookup_insert_eq.
Qed.

Lemma Tutorial_parse_inv seen :
  let st := fold_left parseLine seen parser0 in
  ((blockKey st = "" ∧ blockLines st = seen ∧
    forallb (λ x, negb (isDelimiter x)) seen = true) ∨
   ∃ pre d mid,
     seen = pre ++ d :: mid ∧ isDelimiter d = true ∧ keyOf d = blockKey st ∧
     Forall (λ x, isDelimiter x = false) mid ∧
     blockLines st =
       (if forallb (λ x, negb (isDelimiter x)) pre then pre else [])
       ++ d :: mid) ∧
  (∀ k b, outputBlocks st !! k = Some b →
     ∃ pre d mid d' post,
       seen = pre ++ d :: mid ++ d' :: post ∧ isDelimiter d = true ∧
       keyOf d = k ∧ Forall (λ x, isDelimiter x = false) mid ∧
       isDelimiter d' = true ∧
       b = (if forallb (λ x, negb (isDelimiter x)) pre then pre else [])
           ++ d :: mid).
Proof.
  induction seen as [|x seen IH] using rev_ind; [simpl|].
  - split; [by left|]. intros k b. by rewrite lookup_empty.
  - rewrite fold_left_app. cbn [fold_left].
    set (st := fold_left parseLine seen parser0) in *.
    destruct IH as [IHa IHb].
    destruct (isDelimiter x) eqn:Hx.
    + rewrite (Tutorial_parseLine_delim _ _ Hx).
      destruct (Py.truthy (blockKey st)) eqn:Ht; simpl.
      * apply truthy_true in Ht.
        destruct IHa as [[? _]|(pre & d & mid & E & Hd & Hk & Hl & Hb)];
          [done|].
        split.
        { right. exists seen, x, []. repeat split; auto.
          rewrite E, forallb_app. simpl. rewrite Hd. simpl.
          by rewrite andb_false_r. }
        intros k b.
        destruct (decide (blockKey st = k)) as [<-|Hne].
        -- rewrite lookup_insert_eq. intros [= <-].
           exists pre, d, mid, x, [].
           split; [|done]. rewrite E at 1. by reassoc.
        -- rewrite lookup_insert_ne by done. intros Hb'.
           destruct (IHb _ _ Hb') as (pre' & d' & mid' & d'' & post & E' & H).
           exists pre', d', mid', d'', (post ++ [x]). split; [|done].
           rewrite E'. by reassoc.
      * destruct IHa as [(Hk & Hl & Hall)|(pre & d & mid & E & Hd & Hk & _)].
        2:{ rewrite <- Hk, (Tutorial_keyOf_truthy _ Hd) in Ht. done. }
        split.
        { right. exists seen, x, []. rewrite Hall, Hl. repeat split; auto. }
        intros k b Hb.
        destruct (IHb _ _ Hb) as (pre & d & mid & d' & post & E & H).
        exists pre, d, mid, d', (post ++ [x]). split; [|done].
        rewrite E. by reassoc.
    + unfold parseLine. rewrite Hx. simpl. split.
      * destruct IHa as [(Hk & Hl & Hall)|(pre & d & mid & E & Hd & Hk & Hl & Hb)].
        -- left. rewrite Hl, forallb_app, Hall. simpl. by rewrite Hx.
        -- right. exists pre, d, (mid ++ [x]).
           split; [rewrite E at 1; by reassoc|].
           split; [done|]. split; [done|]. split.
           ++ apply Forall_app. split; [done|]. by constructor.
           ++ rewrite Hb. by reassoc.
      * intros k b Hb.
        destruct (IHb _ _ Hb) as (pre & d & mid & d' & post & E & H).
        exists pre, d, mid, d', (post ++ [x]). split; [|done].
        rewrite E. by reassoc.
Qed.

(** Every stored block is the delimiter line that opened it and the lines
    after it up to the next delimiter line or the end; the block of the
    first delimiter line begins with the lines before that line. *)
Lemma Tutorial_stored_block lines k b :
  parseOutput lines !! k = Some b →
  ∃ pre d mid post,
    lines = pre ++ d :: mid ++ post ∧ isDelimiter d = true ∧ keyOf d = k ∧
    Forall (λ x, isDelimiter x = false) mid ∧
    (post = [] ∨ ∃ d' post', post = d' :: post' ∧ isDelimiter d' = true) ∧
    b = (if forallb (λ x, negb (isDelimiter x)) pre then pre else [])
        ++ d :: mid.
Proof.
  unfold parseOutput. destruct (Tutorial_parse_inv lines) as [Ha Hb].
  set (st := fold_left parseLine lines parser0) in *.
  unfold flush. destruct (Py.truthy (blockKey st)) eqn:Ht.
  - destruct (decide (blockKey st = k)) as [<-|Hne].
    + rewrite lookup_insert_eq. intros [= <-]. apply truthy_true in Ht.
      destruct Ha as [[? _]|(pre & d & mid & E & Hd & Hk & Hl & Hlines)];
        [done|].
      exists pre, d, mid, []. rewrite app_nil_r. auto 10.
    + rewrite lookup_insert_ne by done. intros H.
      destruct (Hb _ _ H)
        as (pre & d & mid & d' & post & E & ? & ? & ? & ? & ?).
      exists pre, d, mid, (d' :: post). eauto 10.
  - intros H.
    destruct (Hb _ _ H)
      as (pre & d & mid & d' & post & E & ? & ? & ? & ? & ?).
    exists pre, d, mid, (d' :: post). eauto 10.
Qed.


Lemma Tutorial_key_occurs lines k b :
  parseOutput lines !! k = Some b → Py.occurs "@" k.
Proof.
  intros (pre & d & mid & post & _ & Hd & <- & _)%Tutorial_stored_block.
  by apply Tutorial_keyOf_occurs.
Qed.

End TutorialParser.

(** ** Emitter, text path *)

Section Emitter.

Lemma outputLines_fold (b o : list string) :
  fold_left (λ o x, outputLine ("> " +:+ x) o) b o =
  o ++ map (λ x, "> " +:+ x) b.
Proof.
  revert o. induction b as [|x b IH]; intros o; simpl.
  - by rewrite app_nil_r.
  - rewrite IH. unfold outputLine. by rewrite <- app_assoc.
Qed.

Lemma Impl_outputText_block blocks s b out :
  blocks !! Py.strip s = Some b →
  Impl.outputText blocks s out =
  out ++ [">" +:+ Py.strip s +:+ ":"; "> ```"]
      ++ map (λ x, "> " +:+ x) b ++ ["> ```"].
Proof.
  intros H. unfold Impl.outputText. rewrite H, outputLines_fold.
  unfold outputLine. by rewrite <- !app_assoc.
Qed.

Lemma Impl_outputText_plain blocks s out :
  blocks !! Py.strip s = None → Impl.outputText blocks s out = out ++ [s].
Proof. intros H. unfold Impl.outputText. by rewrite H. Qed.

Lemma Tutorial_outputText_block blocks s b out :
  blocks !! Py.strip s = Some b →
  Tutorial.outputText blocks s out =
  out ++ ["> ```"] ++ map (λ x, "> " +:+ x) b ++ ["> ```"].
Proof.
  intros H. unfold Tutorial.outputText. rewrite H, outputLines_fold.
  unfold outputLine. by rewrite <- !app_assoc.
Qed.

Lemma Tutorial_outputText_plain blocks s out :
  blocks !! Py.strip s = None → Tutorial.outputText blocks s out = out ++ [s].
Proof. intros H. unfold Tutorial.outputText. by rewrite H. Qed.

End Emitter.

(** ** Transducer *)

Section Transducer.

Import Impl.

Variable blocks : gmap string (list string).

Lemma run_app st l1 l2 :
  run blocks st (l1 ++ l2) = run blocks (run blocks st l1) l2.
Proof. apply fold_left_app. Qed.

(** In a hide region every line but a hide-end line is skipped. *)
Lemma run_hidden st mid :
  isOutputting st = "hidden" →
  Forall (λ x, isEndHide x = false) mid →
  run blocks st mid = st.
Proof.
  intros Hh H. induction H as [|x r Hx Hr IH]; [done|].
  cbn [run fold_left].
  assert (step blocks st x = st) as ->; [|done].
  unfold step. by rewrite Hh, Hx.
Qed.

Lemma step_beginHide st b :
  isOutputting st ≠ "hidden" → isBeginHide b = true →
  step blocks st b =
  {| savedOutputting := isOutputting st; isOutputting := "hidden";
     outputFile := outputFile st |}.
Proof.
  intros Hn Hb. unfold step.
  destruct (String.eqb_spec (isOutputting st) "hidden"); [done|].
  rewrite Hb. by destruct (String.eqb (isOutputting st) "text").
Qed.

Lemma step_endHide st e :
  isOutputting st = "hidden" → isEndHide e = true →
  step blocks st e =
  {| savedOutputting := savedOutputting st;
     isOutputting := savedOutputting st;
     outputFile := outputFile st |}.
Proof. intros Hh He. unfold step. by rewrite Hh, He. Qed.

(** A hide region, from its hide-begin line to the first hide-end line
    after it, writes nothing and gives [isOutputting] its value back. *)
Lemma run_hide_region st b mid e :
  isOutputting st ≠ "hidden" → isBeginHide b = true →
  Forall (λ x, isEndHide x = false) mid → isEndHide e = true →
  run blocks st (b :: mid ++ [e]) =
  {| savedOutputting := isOutputting st; isOutputting := isOutputting st;
     outputFile := outputFile st |}.
Proof.
  intros Hn Hb Hmid He. simpl.
  change (fold_left (step blocks) (mid ++ [e]) (step blocks st b))
    with (run blocks (step blocks st b) (mid ++ [e])).
  rewrite (step_beginHide _ _ Hn Hb), run_app.
  set (h := {| savedOutputting := isOutputting st; isOutputting := "hidden";
               outputFile := outputFile st |}).
  rewrite (run_hidden h mid eq_refl Hmid).
  cbn [run fold_left]. by rewrite (step_endHide h e eq_refl He).
Qed.

(** Outside a hide region [savedOutputting] is not read: two states that
    differ in it only run alike. *)
Lemma step_saved_irrelevant st st' s :
  isOutputting st = isOutputting st' ∧ outputFile st = outputFile st' ∧
  (isOutputting st = "hidden" → savedOutputting st = savedOutputting st') →
  isOutputting (step blocks st s) = isOutputting (step blocks st' s) ∧
  outputFile (step blocks st s) = outputFile (step blocks st' s) ∧
  (isOutputting (step blocks st s) = "hidden" →
   savedOutputting (step blocks st s) = savedOutputting (step blocks st' s)).
Proof.
  destruct st as [sv io out], st' as [sv' io' out']. simpl.
  intros (<- & <- & Hs). unfold step. simpl.
  destruct (String.eqb_spec io "hidden") as [->|Hn].
  - rewrite (Hs eq_refl). by destruct (isEndHide s).
  - destruct (String.eqb io "text"), (isBeginHide s); simpl; auto;
      [destruct (isText s)|destruct (isCode s)]; simpl; auto;
      repeat split; auto; done.
Qed.

Lemma run_saved_irrelevant st st' src :
  isOutputting st = isOutputting st' → outputFile st = outputFile st' →
  isOutputting st ≠ "hidden" →
  finish (run blocks st src) = finish (run blocks st' src).
Proof.
  intros H1 H2 H3.
  assert (isOutputting (run blocks st src) = isOutputting (run blocks st' src) ∧
          outputFile (run blocks st src) = outputFile (run blocks st' src))
    as [E1 E2]; [|unfold finish; by rewrite E1, E2].
  assert (isOutputting st = isOutputting st' ∧ outputFile st = outputFile st' ∧
    (isOutputting st = "hidden" → savedOutputting st = savedOutputting st'))
    as H by (by repeat split).
  clear H1 H2 H3. revert st st' H.
  induction src as [|s src IH]; intros st st' H; simpl; [tauto|].
  apply IH. by apply step_saved_irrelevant.
Qed.

(** The state tags that a run goes through. *)
Lemma step_tags st s :
  (isOutputting st = "text" ∨ isOutputting st = "code" ∨
   (isOutputting st = "hidden" ∧
    (savedOutputting st = "text" ∨ savedOutputting st = "code"))) →
  (isOutputting (step blocks st s) = "text" ∨
   isOutputting (step blocks st s) = "code" ∨
   (isOutputting (step blocks st s) = "hidden" ∧
    (savedOutputting (step blocks st s) = "text" ∨
     savedOutputting (step blocks st s) = "code"))).
Proof.
  destruct st as [sv io out]. simpl. unfold step. simpl.
  intros [->|[->|[-> Hs]]]; simpl.
  - destruct (isBeginHide s); simpl; [auto|].
    destruct (isText s); simpl; auto.
  - destruct (isBeginHide s); simpl; [auto|].
    destruct (isCode s); simpl; auto.
  - destruct (isEndHide s); simpl; [|auto].
    destruct Hs as [->| ->]; auto.
Qed.

Lemma run_tags src :
  let st := run blocks transducer0 src in
  isOutputting st = "text" ∨ isOutputting st = "code" ∨
  (isOutputting st = "hidden" ∧
   (savedOutputting st = "text" ∨ savedOutputting st = "code")).
Proof.
  induction src as [|s src IH] using rev_ind; simpl; [by left|].
  rewrite run_app. cbn [run fold_left]. by apply step_tags.
Qed.

End Transducer.

(** ** [stripBlankLines] *)

Section StripBlankLines.

Lemma pop_front_blank_spec xs :
  ∃ lead, Forall (λ x, isBlank x = true) lead ∧
          xs = lead ++ pop_front_blank xs ∧
          ∀ x, head (pop_front_blank xs) = Some x → isBlank x = false.
Proof.
  induction xs as [|y xs (lead & H1 & H2 & H3)]; simpl.
  - exists []. by repeat split.
  - destruct (isBlank y) eqn:E.
    + exists (y :: lead). split; [by constructor|]. split; [|done].
      simpl. by f_equal.
    + exists []. split; [done|]. split; [done|]. simpl. by intros x [= <-].
Qed.

Lemma pop_back_blank_spec xs :
  ∃ trail, Forall (λ x, isBlank x = true) trail ∧
           xs = pop_back_blank xs ++ trail ∧
           ∀ x, last (pop_back_blank xs) = Some x → isBlank x = false.
Proof.
  induction xs as [|y xs (trail & H1 & H2 & H3)]; simpl.
  - exists []. by repeat split.
  - destruct (pop_back_blank xs) as [|z r] eqn:E.
    + simpl in H2. subst trail. destruct (isBlank y) eqn:Ey.
      * exists (y :: xs). split; [by constructor|]. by split.
      * exists xs. split; [done|]. split; [done|]. simpl. by intros x [= <-].
    + exists trail. split; [done|]. split; [simpl; by f_equal|].
      intros x. rewrite last_cons. destruct (last (z :: r)) eqn:El.
      * intros [= <-]. by apply H3.
      * by apply last_None in El.
Qed.

Lemma pop_back_blank_head xs x :
  head (pop_back_blank xs) = Some x → head xs = Some x.
Proof.
  destruct xs as [|y xs]; simpl; [done|].
  destruct (pop_back_blank xs); [|done].
  by destruct (isBlank y).
Qed.

(** [stripBlankLines xs] is [xs] without the blank lines it begins with
    and the blank lines it ends with. *)
Lemma stripBlankLines_spec xs :
  ∃ lead trail,
    xs = lead ++ stripBlankLines xs ++ trail ∧
    Forall (λ x, isBlank x = true) lead ∧
    Forall (λ x, isBlank x = true) trail ∧
    (∀ x, head (stripBlankLines xs) = Some x → isBlank x = false) ∧
    (∀ x, last (stripBlankLines xs) = Some x → isBlank x = false).
Proof.
  destruct (pop_front_blank_spec xs) as (lead & H1 & H2 & H3).
  destruct (pop_back_blank_spec (pop_front_blank xs)) as (trail & H4 & H5 & H6).
  exists lead, trail. unfold stripBlankLines.
  split; [by rewrite <- H5|]. repeat split; auto.
  intros x Hx. by apply H3, pop_back_blank_head.
Qed.

End StripBlankLines.

(** ** Fence markers *)

Section Fences.

Lemma count_line_app m o1 o2 :
  count_line m (o1 ++ o2) = count_line m o1 + count_line m o2.
Proof. unfold count_line. by rewrite filter_app, length_app. Qed.

Lemma count_line_other m x : x ≠ m → count_line m [x] = 0.
Proof.
  intros H. unfold count_line. rewrite filter_cons.
  by destruct (decide (x = m)).
Qed.

Lemma count_line_self m : count_line m [m] = 1.
Proof.
  unfold count_line. rewrite filter_cons.
  by destruct (decide (m = m)).
Qed.

Lemma count_line_quoted m b :
  m = codeBegin ∨ m = codeEnd →
  count_line m (map (λ x, "> " +:+ x) b) = 0.
Proof.
  intros Hm. induction b as [|x b IH]; [done|].
  change (map _ (x :: b)) with (["> " +:+ x] ++ map (λ x, "> " +:+ x) b).
  rewrite count_line_app, IH, count_line_other; [done|].
  by destruct Hm as [-> | ->].
Qed.

Lemma count_Impl_outputText m blocks s out :
  m = codeBegin ∨ m = codeEnd → s ≠ m →
  count_line m (Impl.outputText blocks s out) = count_line m out.
Proof.
  intros Hm Hs. destruct (blocks !! Py.strip s) as [b|] eqn:E.
  - rewrite (Impl_outputText_block _ _ _ _ E).
    change [">" +:+ Py.strip s +:+ ":"; "> ```"]
      with ([">" +:+ Py.strip s +:+ ":"] ++ ["> ```"]).
    rewrite !count_line_app, count_line_quoted by done.
    rewrite !count_line_other; [lia|by destruct Hm as [-> | ->]..].
  - rewrite (Impl_outputText_plain _ _ _ E), count_line_app.
    rewrite count_line_other by done. lia.
Qed.

Lemma count_Tutorial_outputText m blocks s out :
  m = codeBegin ∨ m = codeEnd → s ≠ m →
  count_line m (Tutorial.outputText blocks s out) = count_line m out.
Proof.
  intros Hm Hs. destruct (blocks !! Py.strip s) as [b|] eqn:E.
  - rewrite (Tutorial_outputText_block _ _ _ _ E).
    rewrite !count_line_app, count_line_quoted by done.
    rewrite !count_line_other; [lia|by destruct Hm as [-> | ->]..].
  - rewrite (Tutorial_outputText_plain _ _ _ E), count_line_app.
    rewrite count_line_other by done. lia.
Qed.

Variable blocks : gmap string (list string).

(** One line keeps the account of fence markers. *)
Lemma Impl_step_fences st s :
  no_marker s →
  (Impl.isOutputting st = "text" ∨ Impl.isOutputting st = "code" ∨
   (Impl.isOutputting st = "hidden" ∧
    (Impl.savedOutputting st = "text" ∨ Impl.savedOutputting st = "code"))) →
  count_line codeBegin (Impl.outputFile st) =
    count_line codeEnd (Impl.outputFile st) + Impl_open_fences st →
  count_line codeBegin (Impl.outputFile (Impl.step blocks st s)) =
    count_line codeEnd (Impl.outputFile (Impl.step blocks st s)) +
    Impl_open_fences (Impl.step blocks st s).
Proof.
  intros (N1 & N2 & N3 & N4).
  destruct st as [sv io out]. unfold Impl_open_fences, Impl.step. simpl.
  intros [->|[->|[-> Hs]]]; simpl.
  - destruct (Impl.isBeginHide s); simpl; [done|].
    destruct (Impl.isText s); simpl.
    + unfold Impl.stripTextPrefix.
      change (String.length textPrefix) with 4.
      rewrite !count_Impl_outputText by auto. done.
    + unfold outputLine. rewrite !count_line_app, count_line_self.
      rewrite !count_line_other by done. lia.
  - destruct (Impl.isBeginHide s); simpl; [done|].
    destruct (Impl.isCode s); simpl.
    + unfold outputLine. rewrite !count_line_app.
      rewrite !count_line_other by done. lia.
    + unfold Impl.stripTextPrefix.
      change (String.length textPrefix) with 4.
      rewrite !count_Impl_outputText by auto.
      unfold outputLine. rewrite !count_line_app, count_line_self.
      rewrite count_line_other by done. lia.
  - destruct (Impl.isEndHide s); simpl; [|done].
    by destruct Hs as [-> | ->].
Qed.

Lemma Impl_run_fences src :
  Forall no_marker src →
  let st := Impl.run blocks Impl.transducer0 src in
  count_line codeBegin (Impl.outputFile st) =
    count_line codeEnd (Impl.outputFile st) + Impl_open_fences st.
Proof.
  induction src as [|s src IH] using rev_ind; [done|].
  intros [Hsrc Hs%Forall_inv]%Forall_app. rewrite run_app.
  cbn [Impl.run fold_left].
  apply Impl_step_fences; [done|apply run_tags|by apply IH].
Qed.

(** Fence balance of [docs/implementing-tutorial/emdeer.py]: the output has
    as many fence-open markers as fence-close markers, but for a source
    that ends inside a hide region entered from the code state, where one
    fence is left open. *)
Lemma Impl_fence_balance src :
  Forall no_marker src →
  let st := Impl.run blocks Impl.transducer0 src in
  count_line codeBegin (Impl.transduce blocks src) =
    count_line codeEnd (Impl.transduce blocks src) +
    (if String.eqb (Impl.isOutputting st) "hidden" &&
        String.eqb (Impl.savedOutputting st) "code" then 1 else 0).
Proof.
  intros Hsrc st. pose proof (Impl_run_fences src Hsrc) as H.
  fold st in H. unfold Impl.transduce, Impl.finish. fold st.
  unfold Impl_open_fences in H.
  destruct (String.eqb_spec (Impl.isOutputting st) "code") as [E|E].
  - rewrite E. simpl. unfold outputLine.
    rewrite !count_line_app, count_line_self, count_line_other by done. lia.
  - done.
Qed.

Lemma Tutorial_step_fences st s :
  no_marker s →
  (Tutorial.isOutputting st = "text" ∨ Tutorial.isOutputting st = "code") →
  (Tutorial.isOutputting (Tutorial.step blocks st s) = "text" ∨
   Tutorial.isOutputting (Tutorial.step blocks st s) = "code") ∧
  (count_line codeBegin (Tutorial.outputFile st) =
     count_line codeEnd (Tutorial.outputFile st) + Tutorial_open_fences st →
   count_line codeBegin (Tutorial.outputFile (Tutorial.step blocks st s)) =
     count_line codeEnd (Tutorial.outputFile (Tutorial.step blocks st s)) +
     Tutorial_open_fences (Tutorial.step blocks st s)).
Proof.
  intros (N1 & N2 & N3 & N4).
  destruct st as [io out]. unfold Tutorial_open_fences, Tutorial.step. simpl.
  intros [->| ->]; simpl.
  - destruct (Tutorial.isText s); simpl; (split; [auto|]).
    + unfold Tutorial.stripPrefix.
      change (String.length textPrefix) with 4.
      rewrite !count_Tutorial_outputText by auto. done.
    + unfold outputLine. rewrite !count_line_app, count_line_self.
      rewrite !count_line_other by done. lia.
  - destruct (Tutorial.isCode s); simpl; (split; [auto|]).
    + unfold outputLine. rewrite !count_line_app.
      rewrite !count_line_other by done. lia.
    + unfold Tutorial.stripPrefix.
      change (String.length textPrefix) with 4.
      rewrite !count_Tutorial_outputText by auto.
      unfold outputLine. rewrite !count_line_app, count_line_self.
      rewrite count_line_other by done. lia.
Qed.

(** Fence balance of [docs/tutorial/emdeer.py], which has no hide
    regions. *)
Lemma Tutorial_fence_balance src :
  Forall no_marker src →
  count_line codeBegin (Tutorial.transduce blocks src) =
  count_line codeEnd (Tutorial.transduce blocks src).
Proof.
  intros Hsrc.
  assert (let st := Tutorial.run blocks Tutorial.transducer0 src in
          (Tutorial.isOutputting st = "text" ∨
           Tutorial.isOutputting st = "code") ∧
          count_line codeBegin (Tutorial.outputFile st) =
            count_line codeEnd (Tutorial.outputFile st) +
            Tutorial_open_fences st) as [Ht H].
  { induction src as [|s src IH] using rev_ind; [by split; [left|]|].
    apply Forall_app in Hsrc as [Hsrc Hs%Forall_inv].
    unfold Tutorial.run. rewrite fold_left_app. cbn [fold_left].
    destruct (IH Hsrc) as [IH1 IH2].
    destruct (Tutorial_step_fences _ s Hs IH1) as [H1 H2]. split; [done|].
    by apply H2. }
  unfold Tutorial.transduce, Tutorial.finish.
  unfold Tutorial_open_fences in H.
  destruct (String.eqb_spec
              (Tutorial.isOutputting
                 (Tutorial.run blocks Tutorial.transducer0 src)) "code")
    as [E|E].
  - unfold outputLine.
    rewrite !count_line_app, count_line_self, count_line_other by done. lia.
  - lia.
Qed.

End Fences.

(** * The properties of the specification *)

(** ** Transducer *)

(** C1, fence balance, and the input where the script breaks it.  For a
    source none of whose lines can be taken for a fence marker, the output
    of [docs/implementing-tutorial/emdeer.py] has as many fence-open markers
    as fence-close markers, plus one fence-open marker when the source ends
    inside a hide region that was entered from the code state; the output
    of [docs/tutorial/emdeer.py] has as many of the one as of the other.
    In that case [isOutputting] is ["hidden"] at the end of the stream, the
    test [isOutputting == "code"] fails, and the fence stays open: for the
    source [int x;], [MD_BEGIN_HIDE] the output has one fence-open marker
    and no fence-close marker, whatever the program printed. *)
Theorem fence_left_open_when_source_ends_hidden :
  (∀ blocks src,
     Forall no_marker src →
     let st := Impl.run blocks Impl.transducer0 src in
     count_line codeBegin (Impl.transduce blocks src) =
       count_line codeEnd (Impl.transduce blocks src) +
       (if String.eqb (Impl.isOutputting st) "hidden" &&
           String.eqb (Impl.savedOutputting st) "code" then 1 else 0)) ∧
  (∀ blocks src,
     Forall no_marker src →
     count_line codeBegin (Tutorial.transduce blocks src) =
     count_line codeEnd (Tutorial.transduce blocks src)) ∧
  (∀ programOutputLines,
     Impl.emdeer programOutputLines ["int x;"; "MD_BEGIN_HIDE"] =
       Some ["```c++"; "int x;"]) ∧
  count_line codeBegin ["```c++"; "int x;"] = 1 ∧
  count_line codeEnd ["```c++"; "int x;"] = 0.
Proof.
  split; [apply Impl_fence_balance|].
  split; [apply Tutorial_fence_balance|].
  split; [|by vm_compute].
  intros programOutputLines. unfold Impl.emdeer.
  assert (extendRegions Impl.isText ["int x;"; "MD_BEGIN_HIDE"] =
          Some ["int x;"; "MD_BEGIN_HIDE"]) as -> by (by vm_compute).
  reflexivity.
Qed.

Lemma fence_left_open_when_source_ends_hidden_witness :
  count_line codeBegin (Impl.transduce ∅ ["int x;"; "MD_BEGIN_HIDE"]) =
  count_line codeEnd (Impl.transduce ∅ ["int x;"; "MD_BEGIN_HIDE"]) + 1.
Proof.
  apply (proj1 fence_left_open_when_source_ends_hidden ∅
           ["int x;"; "MD_BEGIN_HIDE"]).
  repeat constructor; by vm_compute.
Defined.

(** C2, hide transparency.  Take a hide-begin line [b] met outside a hide
    region, lines [mid] none of which is a hide-end line, and a hide-end
    line [e]: the first hide-end line after [b].  Nothing is written from
    [b] to [e], whatever prefix of the region has been read; after [e] the
    state [isOutputting] is what it was before [b]; and the output of the
    whole run is the output for the source without the region. *)
Theorem hide_transparency blocks pre b mid e post :
  Impl.isOutputting (Impl.run blocks Impl.transducer0 pre) ≠ "hidden" →
  Impl.isBeginHide b = true →
  Forall (λ x, Impl.isEndHide x = false) mid →
  Impl.isEndHide e = true →
  let before := Impl.run blocks Impl.transducer0 pre in
  let after := Impl.run blocks Impl.transducer0 (pre ++ b :: mid ++ [e]) in
  (∀ n, Impl.outputFile
          (Impl.run blocks Impl.transducer0 (pre ++ b :: take n mid)) =
        Impl.outputFile before) ∧
  Impl.outputFile after = Impl.outputFile before ∧
  Impl.isOutputting after = Impl.isOutputting before ∧
  Impl.transduce blocks (pre ++ b :: mid ++ e :: post) =
    Impl.transduce blocks (pre ++ post).
Proof.
  intros Hn Hb Hmid He before after.
  assert (Impl.run blocks Impl.transducer0 (pre ++ b :: mid ++ [e]) =
          {| Impl.savedOutputting := Impl.isOutputting before;
             Impl.isOutputting := Impl.isOutputting before;
             Impl.outputFile := Impl.outputFile before |}) as Hafter.
  { rewrite run_app. by apply run_hide_region. }
  subst after. rewrite Hafter. simpl.
  split; [|split; [done|split; [done|]]].
  - intros n. rewrite run_app. fold before.
    change (b :: take n mid) with ([b] ++ take n mid). rewrite run_app.
    cbn [Impl.run fold_left]. rewrite (step_beginHide _ _ _ Hn Hb).
    rewrite run_hidden; [done|done|]. by apply Forall_take.
  - unfold Impl.transduce.
    replace (pre ++ b :: mid ++ e :: post)
      with ((pre ++ b :: mid ++ [e]) ++ post)
      by (rewrite <- !app_assoc; simpl; by rewrite <- !app_assoc).
    rewrite !(run_app _ _ _ post), Hafter. fold before.
    symmetry. by apply run_saved_irrelevant.
Qed.

Lemma hide_transparency_witness :
  Impl.transduce ∅
    (["int x;"] ++ "MD_BEGIN_HIDE" :: ["secret"] ++ "MD_END_HIDE" :: ["int y;"]) =
  Impl.transduce ∅ (["int x;"] ++ ["int y;"]).
Proof.
  apply (hide_transparency ∅ ["int x;"] "MD_BEGIN_HIDE" ["secret"]
           "MD_END_HIDE" ["int y;"]).
  - vm_compute. discriminate.
  - reflexivity.
  - repeat constructor.
  - reflexivity.
Defined.

(** C8, hide regions do not nest.  At every point of every run, when
    [isOutputting] is ["hidden"] the saved state is ["text"] or ["code"];
    and in the hidden state a hide-begin line changes nothing: neither
    [isOutputting], nor [savedOutputting], nor the output. *)
Theorem hide_does_not_nest blocks :
  (∀ src n,
     let st := Impl.run blocks Impl.transducer0 (take n src) in
     Impl.isOutputting st = "hidden" →
     Impl.savedOutputting st = "text" ∨ Impl.savedOutputting st = "code") ∧
  (∀ st s,
     Impl.isOutputting st = "hidden" → Impl.isBeginHide s = true →
     Impl.step blocks st s = st).
Proof.
  split.
  - intros src n st Hh.
    destruct (run_tags blocks (take n src)) as [H|[H|[_ H]]]; fold st in H.
    + by rewrite Hh in H.
    + by rewrite Hh in H.
    + done.
  - intros st s Hh Hb. unfold Impl.step.
    by rewrite Hh, (beginHide_not_endHide _ Hb).
Qed.

Lemma hide_does_not_nest_witness :
  Impl.savedOutputting
    (Impl.run ∅ Impl.transducer0
       (take 3 ["int x;"; "MD_BEGIN_HIDE"; "MD_BEGIN_HIDE"; "MD_END_HIDE"])) =
    "text" ∨
  Impl.savedOutputting
    (Impl.run ∅ Impl.transducer0
       (take 3 ["int x;"; "MD_BEGIN_HIDE"; "MD_BEGIN_HIDE"; "MD_END_HIDE"])) =
    "code".
Proof.
  apply (proj1 (hide_does_not_nest ∅)
           ["int x;"; "MD_BEGIN_HIDE"; "MD_BEGIN_HIDE"; "MD_END_HIDE"] 3).
  reflexivity.
Defined.

(** ** Emitter *)

(** C3, block substitution is exact.  For a source line [line] that goes
    down the text path, let [s] be the line after prefix stripping.  When
    [s] trimmed is a key of the table, what is written is the block's
    stored lines, each after the blockquote marker [> ], in order, between
    two blockquoted fence lines (in [docs/implementing-tutorial] a line
    [>KEY:] comes before the first fence); when it is no key, what is
    written is [s] itself, as one line. *)
Theorem block_substitution_exact blocks line out :
  let s := Impl.stripTextPrefix line line in
  let s' := Tutorial.stripPrefix line line in
  (∀ b, blocks !! Py.strip s = Some b →
     Impl.outputText blocks s out =
       out ++ [">" +:+ Py.strip s +:+ ":"; "> ```"]
           ++ map (λ x, "> " +:+ x) b ++ ["> ```"] ∧
     Tutorial.outputText blocks s' out =
       out ++ ["> ```"] ++ map (λ x, "> " +:+ x) b ++ ["> ```"]) ∧
  (blocks !! Py.strip s = None →
     Impl.outputText blocks s out = out ++ [s] ∧
     Tutorial.outputText blocks s' out = out ++ [s']).
Proof.
  intros s s'. split.
  - intros b Hb. split.
    + by apply Impl_outputText_block.
    + by apply Tutorial_outputText_block.
  - intros Hn. split.
    + by apply Impl_outputText_plain.
    + by apply Tutorial_outputText_plain.
Qed.

Lemma block_substitution_exact_witness :
  Impl.outputText {[ "[out]" := ["hello"; "world"] ]}
    (Impl.stripTextPrefix "///  [out] " "///  [out] ") [] =
    [] ++ [">" +:+ Py.strip (Impl.stripTextPrefix "///  [out] " "///  [out] ")
               +:+ ":"; "> ```"]
       ++ map (λ x, "> " +:+ x) ["hello"; "world"] ++ ["> ```"] ∧
  Tutorial.outputText {[ "[out]" := ["hello"; "world"] ]}
    (Tutorial.stripPrefix "///  [out] " "///  [out] ") [] =
    [] ++ ["> ```"] ++ map (λ x, "> " +:+ x) ["hello"; "world"] ++ ["> ```"].
Proof.
  apply (proj1 (block_substitution_exact
                  {[ "[out]" := ["hello"; "world"] ]} "///  [out] " [])).
  reflexivity.
Defined.

(** C9, block keys are not empty.  The parser stores a block only under a
    key that is not empty; the key a delimiter line opens has a byte that
    is not white space; so every key of the table is a non-empty string
    with such a byte.  Hence a prose line that is empty once trimmed, such
    as the remainder of a blank line that the region extender has turned
    into [textPrefix], is no key, and is written as it is.  This holds for
    the two variants. *)
Theorem block_keys_nonempty programOutputLines :
  (∀ st, Impl.blockKey st = "" → Impl.flush st = Impl.outputBlocks st) ∧
  (∀ st s, Impl.isDelimiter s = true →
     Py.allspace (Impl.blockKey (Impl.parseLine st s)) = false) ∧
  (∀ k b, Impl.parseOutput programOutputLines !! k = Some b →
     k ≠ "" ∧ Py.allspace k = false) ∧
  (∀ s out, Py.strip s = "" →
     Impl.outputText (Impl.parseOutput programOutputLines) s out = out ++ [s]) ∧
  (∀ out,
     Impl.outputText (Impl.parseOutput programOutputLines)
       (Impl.stripTextPrefix textPrefix textPrefix) out = out ++ [""]) ∧
  (∀ st, Tutorial.blockKey st = "" →
     Tutorial.flush st = Tutorial.outputBlocks st) ∧
  (∀ st s, Tutorial.isDelimiter s = true →
     Py.allspace (Tutorial.blockKey (Tutorial.parseLine st s)) = false) ∧
  (∀ k b, Tutorial.parseOutput programOutputLines !! k = Some b →
     k ≠ "" ∧ Py.allspace k = false) ∧
  (∀ s out, Py.strip s = "" →
     Tutorial.outputText (Tutorial.parseOutput programOutputLines) s out =
     out ++ [s]) ∧
  (∀ out,
     Tutorial.outputText (Tutorial.parseOutput programOutputLines)
       (Tutorial.stripPrefix textPrefix textPrefix) out = out ++ [""]).
Proof.
  assert (∀ k b, Impl.parseOutput programOutputLines !! k = Some b →
            k ≠ "" ∧ Py.allspace k = false) as HI.
  { intros k b H%Impl_key_occurs. split.
    - intros E. by rewrite E in H.
    - by apply (occurs_allspace _ _ H). }
  assert (∀ k b, Tutorial.parseOutput programOutputLines !! k = Some b →
            k ≠ "" ∧ Py.allspace k = false) as HT.
  { intros k b H%Tutorial_key_occurs. split.
    - intros E. by rewrite E in H.
    - by apply (occurs_allspace _ _ H). }
  assert (∀ s out, Py.strip s = "" →
     Impl.outputText (Impl.parseOutput programOutputLines) s out = out ++ [s])
    as HIe.
  { intros s out Hs. apply Impl_outputText_plain. rewrite Hs.
    destruct (_ !! "") eqn:E; [|done]. by destruct (HI _ _ E). }
  assert (∀ s out, Py.strip s = "" →
     Tutorial.outputText (Tutorial.parseOutput programOutputLines) s out =
     out ++ [s]) as HTe.
  { intros s out Hs. apply Tutorial_outputText_plain. rewrite Hs.
    destruct (_ !! "") eqn:E; [|done]. by destruct (HT _ _ E). }
  repeat split.
  - intros st H. unfold Impl.flush. by rewrite H.
  - intros st s H. rewrite (parseLine_delim _ _ H). simpl.
    by apply (occurs_allspace _ _ (keyOf_occurs _ H)).
  - by destruct (HI _ _ H).
  - by destruct (HI _ _ H).
  - done.
  - intros out. by apply HIe.
  - intros st H. unfold Tutorial.flush. by rewrite H.
  - intros st s H. rewrite (Tutorial_parseLine_delim _ _ H).
    destruct (Py.truthy _); simpl;
      by apply (occurs_allspace _ _ (Tutorial_keyOf_occurs _ H)).
  - by destruct (HT _ _ H).
  - by destruct (HT _ _ H).
  - done.
  - intros out. by apply HTe.
Qed.

Lemma block_keys_nonempty_witness :
  Impl.outputText (Impl.parseOutput ["# [out] #"; "hello"]) "  " ["a"] =
  ["a"] ++ ["  "].
Proof.
  apply (proj1 (proj2 (proj2 (proj2
           (block_keys_nonempty ["# [out] #"; "hello"])))) "  " ["a"]).
  reflexivity.
Defined.

(** ** Output-block parser *)

(** C4 as it is worded fails: the line [# [out] #] opens the key [[out]],
    brackets included, not [out]; and with the four captured lines of the
    example the table has no entry [out], and maps [[out]] to no line. *)
Lemma delimiter_key_counterexample :
  Impl.blockKey (Impl.parseLine Impl.parser0 "# [out] #") ≠ "out" ∧
  Impl.parseOutput ["# [out] #"; "hello"; "world"; "# [out] #"] !! "out" ≠
    Some ["hello"; "world"].
Proof. split; by vm_compute. Qed.

(** C4, amended.  A line [# [KEY] #] with no white space around it is a
    delimiter line for every [KEY]; the parser stores the open block if it
    has one, and opens an empty block whose key is [[KEY]], the text with
    its brackets: [s[1:-1].strip()].  The line [# [out] #] opens [[out]].
    With the captured lines [# [out] #], [hello], [world] the table maps
    [[out]] to [hello], [world]; a fourth line [# [out] #] opens [[out]]
    once more, and the table then maps [[out]] to the empty list. *)
Theorem delimiter_opens_bracketed_key k st :
  Impl.isDelimiter ("# [" +:+ k +:+ "] #") = true ∧
  Impl.parseLine st ("# [" +:+ k +:+ "] #") =
    {| Impl.outputBlocks := Impl.flush st;
       Impl.blockKey := "[" +:+ k +:+ "]";
       Impl.blockLines := [] |} ∧
  Impl.blockKey (Impl.parseLine Impl.parser0 "# [out] #") = "[out]" ∧
  Impl.parseOutput ["# [out] #"; "hello"; "world"] =
    {[ "[out]" := ["hello"; "world"] ]} ∧
  Impl.parseOutput ["# [out] #"; "hello"; "world"; "# [out] #"] =
    {[ "[out]" := [] ]}.
Proof.
  split; [apply isDelimiter_bracket|].
  split; [|by vm_compute].
  by rewrite (parseLine_delim _ _ (isDelimiter_bracket k)), keyOf_bracket.
Qed.




(** C7, duplicate keys.  Let [d] be the last delimiter line that opens its
    key: [mid], the lines after it, has no delimiter line, and [post],
    what follows, is empty or begins with a delimiter line and has no
    delimiter line for the key of [d].  Then the table maps the key of [d]
    to the block of [d], whatever blocks the lines [pre] before it gave that
    key: in [docs/implementing-tutorial] the lines [mid] with the blank
    lines stripped, in [docs/tutorial] the line [d] and the lines [mid]
    (after the lines [pre] when [d] is the first delimiter line).  A key
    occurs once in the table. *)
Theorem last_write_wins :
  (∀ pre d mid post,
     Impl.isDelimiter d = true →
     Forall (λ x, Impl.isDelimiter x = false) mid →
     (post = [] ∨
      ∃ d' post', post = d' :: post' ∧ Impl.isDelimiter d' = true) →
     Forall (λ x, Impl.isDelimiter x = true → Impl.keyOf x ≠ Impl.keyOf d)
       post →
     Impl.parseOutput (pre ++ d :: mid ++ post) !! Impl.keyOf d =
       Some (stripBlankLines mid)) ∧
  (∀ lines, NoDup (map_to_list (Impl.parseOutput lines)).*1) ∧
  (∀ pre d mid post,
     Tutorial.isDelimiter d = true →
     Forall (λ x, Tutorial.isDelimiter x = false) mid →
     (post = [] ∨
      ∃ d' post', post = d' :: post' ∧ Tutorial.isDelimiter d' = true) →
     Forall (λ x, Tutorial.isDelimiter x = true →
                  Tutorial.keyOf x ≠ Tutorial.keyOf d) post →
     Tutorial.parseOutput (pre ++ d :: mid ++ post) !! Tutorial.keyOf d =
       Some ((if forallb (λ x, negb (Tutorial.isDelimiter x)) pre
              then pre else []) ++ d :: mid)) ∧
  (∀ lines, NoDup (map_to_list (Tutorial.parseOutput lines)).*1).
Proof.
  split; [apply Impl_last_wins|].
  split; [intros; apply NoDup_fst_map_to_list|].
  split; [apply Tutorial_last_wins|].
  intros; apply NoDup_fst_map_to_list.
Qed.

Lemma last_write_wins_witness :
  Impl.parseOutput
    (["# [out] #"; "old"] ++ "# [out] #" :: ["hello"; "world"; ""] ++
     ["# [end] #"; "bye"]) !! Impl.keyOf "# [out] #" =
  Some (stripBlankLines ["hello"; "world"; ""]).
Proof.
  apply (proj1 last_write_wins ["# [out] #"; "old"] "# [out] #"
           ["hello"; "world"; ""] ["# [end] #"; "bye"]).
  - reflexivity.
  - repeat constructor.
  - right. exists "# [end] #", ["bye"]. split; reflexivity.
  - repeat constructor; vm_compute; congruence.
Defined.

(** ** Region extender *)

(** The extension that the script runs always returns and is idempotent,
    in both variants. *)
Lemma Impl_extendRegions_idempotent l :
  ∃ l', extendRegions Impl.isText l = Some l' ∧
        extendRegions Impl.isText l' = Some l'.
Proof.
  destruct (extendRegions_total Impl.isText l) as [l' H]. exists l'.
  split; [done|].
  by apply (extendRegions_idempotent _ Impl_isText_textPrefix
              Impl_blank_not_text l).
Qed.

Lemma Tutorial_extendRegions_idempotent l :
  ∃ l', extendRegions Tutorial.isText l = Some l' ∧
        extendRegions Tutorial.isText l' = Some l'.
Proof.
  destruct (extendRegions_total Tutorial.isText l) as [l' H]. exists l'.
  split; [done|].
  by apply (extendRegions_idempotent _ Tutorial_isText_textPrefix
              Tutorial_blank_not_text l).
Qed.

(** C6, the region extension is idempotent.  For every list of source
    lines the two loops, forward then backward, return a list [l'], and run
    on [l'] they return [l'] again: the second run rewrites no line.  This
    holds of the extension as the script runs it, in the two variants (the
    first two parts), and of the extension whose backward loop starts from
    the flag set to true again, as C6 words it (the next two parts).

    The last six parts record how the two differ, which idempotence does
    not depend on.  The forward loop starts from [prevLineWasText] true;
    before the backward loop the script sets [previousLineWasText], another
    name, so the backward loop starts from the flag the forward loop left.
    On a code line followed by a blank line that flag is false and the
    script keeps the blank line, which is then written inside the code
    fence; started from true, the backward loop turns it into
    [textPrefix]. *)
Theorem region_extension_idempotent :
  (∀ l, ∃ l', extendRegions Impl.isText l = Some l' ∧
              extendRegions Impl.isText l' = Some l') ∧
  (∀ l, ∃ l', extendRegions Tutorial.isText l = Some l' ∧
              extendRegions Tutorial.isText l' = Some l') ∧
  (∀ l, ∃ l', extendRegions_reseeded Impl.isText l = Some l' ∧
              extendRegions_reseeded Impl.isText l' = Some l') ∧
  (∀ l, ∃ l', extendRegions_reseeded Tutorial.isText l = Some l' ∧
              extendRegions_reseeded Tutorial.isText l' = Some l') ∧
  sweep Impl.isText (seq 0 2) ["int x;"; ""] true =
    Some (["int x;"; ""], false) ∧
  extendRegions Impl.isText ["int x;"; ""] = Some ["int x;"; ""] ∧
  extendRegions_reseeded Impl.isText ["int x;"; ""] =
    Some ["int x;"; "/// "] ∧
  extendRegions Tutorial.isText ["int x;"; ""] = Some ["int x;"; ""] ∧
  extendRegions_reseeded Tutorial.isText ["int x;"; ""] =
    Some ["int x;"; "/// "] ∧
  Impl.emdeer [] ["int x;"; ""] = Some ["```c++"; "int x;"; ""; "```"].
Proof.
  split; [apply Impl_extendRegions_idempotent|].
  split; [apply Tutorial_extendRegions_idempotent|].
  split.
  { intros l. rewrite extendRegions_reseeded_eq. eexists. split; [done|].
    by apply (extendRegions_reseeded_idempotent _ Impl_isText_textPrefix
                Impl_blank_not_text l), extendRegions_reseeded_eq. }
  split.
  { intros l. rewrite extendRegions_reseeded_eq. eexists. split; [done|].
    by apply (extendRegions_reseeded_idempotent _ Tutorial_isText_textPrefix
                Tutorial_blank_not_text l), extendRegions_reseeded_eq. }
  repeat split; by vm_compute.
Qed.

(** ** Prefix stripping *)

(** C10 as it is worded fails for one white space before the token: the
    line is text, its stripped form is the bare token, and what is written
    is the empty line. *)
Lemma one_space_before_token_counterexample :
  Impl.isText " ///" = true ∧
  Py.strip " ///" = Py.strip textPrefix ∧
  Impl.stripTextPrefix " ///" " ///" = "" ∧
  Impl.emdeer [] [" ///"] = Some [""].
Proof. repeat split; by vm_compute. Qed.

(** C10, amended.  [stripTextPrefix] does not look at its argument: it
    returns the current line [s] without its first four bytes (the empty
    string when [s] is shorter), whether or not they are the prefix; the
    transducer hands that to the text path for every text line.  So a
    line whose stripped form is the bare token [///] and that begins with
    two white-space bytes or more is text, and what is left of it has a
    [/] in it: it is not empty, it is no block key, and it is written as
    it is.  For two spaces before [///] the line written is [/]. *)
Theorem stripTextPrefix_drops_four_bytes :
  (∀ s x, Impl.stripTextPrefix s x = Py.drop 4 s) ∧
  (∀ s x, String.length (Impl.stripTextPrefix s x) = String.length s - 4) ∧
  (∀ p r x, String.length p = 4 → Impl.stripTextPrefix (p +:+ r) x = r) ∧
  (∀ blocks st s,
     Impl.isOutputting st = "text" → Impl.isBeginHide s = false →
     Impl.isText s = true →
     Impl.outputFile (Impl.step blocks st s) =
     Impl.outputText blocks (Py.drop 4 s) (Impl.outputFile st)) ∧
  (∀ blocks st s,
     Impl.isOutputting st = "code" → Impl.isBeginHide s = false →
     Impl.isText s = true →
     Impl.outputFile (Impl.step blocks st s) =
     Impl.outputText blocks (Py.drop 4 s)
       (Impl.outputFile st ++ [codeEnd])) ∧
  (∀ c1 c2 r programOutputLines,
     Py.isspace c1 = true → Py.isspace c2 = true →
     Py.strip (String c1 (String c2 r)) = "///" →
     let s := String c1 (String c2 r) in
     Impl.isText s = true ∧
     Py.occurs "/" (Impl.stripTextPrefix s s) ∧
     ∀ out,
       Impl.outputText (Impl.parseOutput programOutputLines)
         (Impl.stripTextPrefix s s) out =
       out ++ [Impl.stripTextPrefix s s]) ∧
  (∀ programOutputLines,
     Impl.emdeer programOutputLines ["  ///"] = Some ["/"]).
Proof.
  assert (∀ c1 c2 r programOutputLines,
     Py.isspace c1 = true → Py.isspace c2 = true →
     Py.strip (String c1 (String c2 r)) = "///" →
     let s := String c1 (String c2 r) in
     Impl.isText s = true ∧
     Py.occurs "/" (Impl.stripTextPrefix s s) ∧
     ∀ out,
       Impl.outputText (Impl.parseOutput programOutputLines)
         (Impl.stripTextPrefix s s) out =
       out ++ [Impl.stripTextPrefix s s]) as Hmain.
  { intros c1 c2 r lines H1 H2 Hs s.
    assert (Py.strip r = "///") as Hr.
    { revert Hs. unfold Py.strip. simpl. by rewrite H1, H2. }
    destruct (strip_decomp r) as (w1 & w2 & Hw1 & Hw2 & E).
    rewrite Hr in E.
    split; [|split].
    - unfold Impl.isText. subst s. rewrite Hs. apply orb_true_r.
    - unfold Impl.stripTextPrefix. subst s.
      change (Py.drop (String.length textPrefix) (String c1 (String c2 r)))
        with (Py.drop 2 r).
      replace r with ((w1 +:+ "//") +:+ String "/" w2)
        by (rewrite E; by rewrite !str_app_assoc).
      apply occurs_drop. rewrite str_app_length. simpl. lia.
    - intros out. apply Impl_outputText_plain.
      destruct (_ !! _) eqn:Hl; [|done]. exfalso.
      apply Impl_key_occurs, occurs_strip_inv in Hl.
      unfold Impl.stripTextPrefix in Hl. apply occurs_drop_inv in Hl.
      subst s. simpl in Hl. destruct Hl as [<-|[<-|Hl]]; [done..|].
      rewrite E, !occurs_app in Hl. destruct Hl as [Hl|[Hl|Hl]].
      + by rewrite (occurs_allspace _ _ Hl) in Hw1.
      + simpl in Hl. by destruct Hl as [Hl|[Hl|[Hl|[]]]].
      + by rewrite (occurs_allspace _ _ Hl) in Hw2. }
  split; [done|]. split; [intros; apply drop_length|].
  split; [intros p r x Hp; unfold Impl.stripTextPrefix;
          change (String.length textPrefix) with 4;
          rewrite <- Hp; apply drop_app_length|].
  split.
  { intros blocks st s Hst Hb Ht. unfold Impl.step.
    by rewrite Hst, Hb, Ht. }
  split.
  { intros blocks st s Hst Hb Ht. unfold Impl.step, Impl.isCode.
    by rewrite Hst, Hb, Ht. }
  split; [exact Hmain|].
  intros lines. unfold Impl.emdeer.
  assert (extendRegions Impl.isText ["  ///"] = Some ["  ///"]) as ->
    by (by vm_compute).
  simpl. f_equal.
  destruct (Hmain " "%char " "%char "///" lines eq_refl eq_refl eq_refl)
    as (_ & _ & H).
  unfold Impl.transduce, Impl.run. cbn [fold_left].
  unfold Impl.step. simpl. rewrite H. reflexivity.
Qed.

Lemma stripTextPrefix_drops_four_bytes_witness :
  Impl.isText "	 ///  " = true ∧
  Py.occurs "/" (Impl.stripTextPrefix "	 ///  " "	 ///  ") ∧
  ∀ out,
    Impl.outputText (Impl.parseOutput ["# [/] #"; "x"])
      (Impl.stripTextPrefix "	 ///  " "	 ///  ") out =
    out ++ [Impl.stripTextPrefix "	 ///  " "	 ///  "].
Proof.
  apply (proj1 (proj2 (proj2 (proj2 (proj2 (proj2
           stripTextPrefix_drops_four_bytes)))))
           "009"%char " "%char "///  " ["# [/] #"; "x"]).
  - reflexivity.
  - reflexivity.
  - reflexivity.
Defined.

(** ** Worked examples *)

Example strip_example : Py.strip "  a b	 " = "a b".
Proof. reflexivity. Qed.

Example slice_example : Py.slice_1_m1 "# [out] #" = " [out] ".
Proof. reflexivity. Qed.

Example stripBlankLines_example :
  stripBlankLines [""; " "; "a"; ""; "b"; ""; ""] = ["a"; ""; "b"].
Proof. reflexivity. Qed.

(** A hide region inside code: one fence, without the hidden line. *)
Example hide_example :
  Impl.emdeer []
    ["int x;"; "MD_BEGIN_HIDE"; "secret"; "MD_END_HIDE"; "int y;"] =
  Some ["```c++"; "int x;"; "int y;"; "```"].
Proof. by vm_compute. Qed.

(** A blank line after text becomes text; the code line has its fence. *)
Example blank_after_text_example :
  Impl.emdeer [] ["/// a"; ""; "int main(){}"; "/// b"] =
  Some ["a"; ""; "```c++"; "int main(){}"; "```"; "b"].
Proof. by vm_compute. Qed.

(** A text line that is a block key is replaced by the block. *)
Example substitution_example :
  Impl.emdeer ["# [out] #"; "hello"; "world"] ["/// [out]"; "/// out"] =
  Some [">[out]:"; "> ```"; "> hello"; "> world"; "> ```"; "out"].
Proof. by vm_compute. Qed.

(** * Further properties of the scripts *)

(** ** Line classifier and [stripBlankLines] *)

Section ClassifierMore.

Lemma rstrip_head c r :
  Py.isspace c = false → ∃ r', Py.rstrip (String c r) = String c r'.
Proof.
  intros Hc. simpl. destruct (Py.rstrip r); rewrite ?Hc; eauto.
Qed.

Lemma Impl_isText_strip_head s :
  Impl.isText s = true → ∃ r, Py.strip s = String "/" r.
Proof.
  unfold Impl.isText. intros [H|H]%orb_true_iff.
  - apply prefix_inv in H as [r ->]. unfold Py.strip.
    change (Py.lstrip (textPrefix +:+ r)) with (String "/" ("// " +:+ r)).
    by apply rstrip_head.
  - apply String.eqb_eq in H. rewrite H. by eexists.
Qed.

Lemma rstrip_idempotent s : Py.rstrip (Py.rstrip s) = Py.rstrip s.
Proof.
  induction s as [|c s IH]; [done|]. simpl.
  destruct (Py.rstrip s) as [|d r'] eqn:E.
  - destruct (Py.isspace c) eqn:Hc; [done|]. simpl. by rewrite Hc.
  - simpl in *. rewrite IH. done.
Qed.

Lemma lstrip_head_nonspace s :
  match Py.lstrip s with "" => True | String c _ => Py.isspace c = false end.
Proof.
  induction s as [|c s IH]; [done|]. simpl.
  destruct (Py.isspace c) eqn:Hc; [done|]. by rewrite Hc.
Qed.

(** Stripping a stripped string changes nothing. *)
Lemma strip_idempotent s : Py.strip (Py.strip s) = Py.strip s.
Proof.
  unfold Py.strip at 1.
  assert (Py.lstrip (Py.strip s) = Py.strip s) as ->.
  { unfold Py.strip. pose proof (lstrip_head_nonspace s) as H.
    destruct (Py.lstrip s) as [|c r]; [done|].
    destruct (rstrip_head c r H) as [r' ->]. simpl. by rewrite H. }
  unfold Py.strip. apply rstrip_idempotent.
Qed.

Lemma pop_front_blank_fixed xs :
  (∀ x, head xs = Some x → isBlank x = false) → pop_front_blank xs = xs.
Proof.
  destruct xs as [|y r]; [done|]. simpl. intros H. by rewrite (H y eq_refl).
Qed.

Lemma pop_back_blank_fixed xs :
  (∀ x, last xs = Some x → isBlank x = false) → pop_back_blank xs = xs.
Proof.
  induction xs as [|y r IH]; [done|]. simpl. intros H.
  destruct r as [|z r].
  - simpl. by rewrite (H y eq_refl).
  - rewrite IH; [done|]. intros x Hx. apply H. by rewrite last_cons, Hx.
Qed.

Lemma pop_front_blank_all xs :
  Forall (λ x, isBlank x = true) xs → pop_front_blank xs = [].
Proof. induction 1 as [|x r Hx Hr IH]; simpl; [done|]. by rewrite Hx. Qed.

End ClassifierMore.

Lemma line_classes s :
  isBlank s && Impl.isText s = false ∧
  isBlank s && Tutorial.isText s = false ∧
  isBlank s && Impl.isBeginHide s = false ∧
  isBlank s && Impl.isEndHide s = false ∧
  Impl.isText s && Impl.isBeginHide s = false ∧
  Impl.isText s && Impl.isEndHide s = false ∧
  Impl.isBeginHide s && Impl.isEndHide s = false ∧
  isBlank textPrefix = false ∧
  Impl.isText textPrefix = true ∧ Tutorial.isText textPrefix = true.
Proof.
  assert (∀ m, isBlank s && String.eqb (Py.strip s) (String "M" m) = false) as Hb.
  { intros m. destruct (isBlank s) eqn:E; [|done].
    apply isBlank_true in E. by rewrite E. }
  assert (∀ m, Impl.isText s && String.eqb (Py.strip s) (String "M" m) = false)
    as Ht.
  { intros m. destruct (Impl.isText s) eqn:E; [|done].
    destruct (Impl_isText_strip_head _ E) as [r ->]. done. }
  repeat split; try done.
  - destruct (isBlank s) eqn:E; [|done]. by rewrite Impl_blank_not_text.
  - destruct (isBlank s) eqn:E; [|done]. by rewrite Tutorial_blank_not_text.
  - apply Hb.
  - apply Hb.
  - apply Ht.
  - apply Ht.
  - destruct (Impl.isBeginHide s) eqn:E; [|done].
    by rewrite beginHide_not_endHide.
Qed.

(** X1.  A line is of one class at most: a blank line is no text line and
    no hide marker, a text line is no hide marker, a hide-begin line is no
    hide-end line; the line that the region extender writes in place of a
    blank line is text and not blank. *)
Theorem line_classes_exclusive s :
  isBlank s && Impl.isText s = false ∧
  isBlank s && Tutorial.isText s = false ∧
  isBlank s && Impl.isBeginHide s = false ∧
  isBlank s && Impl.isEndHide s = false ∧
  Impl.isText s && Impl.isBeginHide s = false ∧
  Impl.isText s && Impl.isEndHide s = false ∧
  Impl.isBeginHide s && Impl.isEndHide s = false ∧
  isBlank textPrefix = false ∧
  Impl.isText textPrefix = true ∧ Tutorial.isText textPrefix = true.
Proof. apply line_classes. Qed.

(** X2.  [stripBlankLines] is idempotent, returns the empty list exactly
    for a list of blank lines, and leaves alone a list that neither begins
    nor ends with a blank line. *)
Theorem stripBlankLines_idempotent xs :
  stripBlankLines (stripBlankLines xs) = stripBlankLines xs ∧
  (stripBlankLines xs = [] ↔ Forall (λ x, isBlank x = true) xs) ∧
  ((∀ x, head xs = Some x → isBlank x = false) →
   (∀ x, last xs = Some x → isBlank x = false) →
   stripBlankLines xs = xs).
Proof.
  assert (∀ ys, (∀ x, head ys = Some x → isBlank x = false) →
                (∀ x, last ys = Some x → isBlank x = false) →
                stripBlankLines ys = ys) as Hfix.
  { intros ys Hh Hl. unfold stripBlankLines.
    rewrite (pop_front_blank_fixed _ Hh). by apply pop_back_blank_fixed. }
  destruct (stripBlankLines_spec xs) as (lead & trail & E & H1 & H2 & H3 & H4).
  split; [by apply Hfix|]. split; [|apply Hfix].
  split.
  - intros H0. rewrite E, H0. simpl. by apply Forall_app.
  - intros H. unfold stripBlankLines. by rewrite pop_front_blank_all.
Qed.

(** ** Region extender *)

Section ExtenderMore.

Variable isText : string → bool.
Hypothesis isText_textPrefix : isText textPrefix = true.
Hypothesis blank_not_text : ∀ s, isBlank s = true → isText s = false.

Lemma forward_pointwise g l :
  Forall2 (λ s s', s' = s ∨ (isBlank s = true ∧ s' = textPrefix))
    l (forward isText g l).1.
Proof.
  revert g. induction l as [|s r IH]; intros g; simpl; [constructor|].
  destruct (isBlank s && g) eqn:E.
  - specialize (IH true). destruct (forward isText true r). simpl in *.
    apply andb_true_iff in E as [E _]. constructor; auto.
  - specialize (IH (isText s)). destruct (forward isText (isText s) r).
    simpl in *. constructor; auto.
Qed.

Lemma backward_pointwise g l :
  Forall2 (λ s s', s' = s ∨ (isBlank s = true ∧ s' = textPrefix))
    l (backward isText g l).1.
Proof.
  induction l as [|s r IH]; simpl; [constructor|].
  destruct (backward isText g r) as [r' f]. simpl in *.
  destruct (isBlank s && f) eqn:E; simpl.
  - apply andb_true_iff in E as [E _]. constructor; auto.
  - constructor; auto.
Qed.

(** The extension rewrites blank lines only, and to [textPrefix]. *)
Lemma extendRegions_pointwise l :
  ∃ l', extendRegions isText l = Some l' ∧
        Forall2 (λ s s', s' = s ∨ (isBlank s = true ∧ s' = textPrefix)) l l'.
Proof.
  rewrite extendRegions_eq. eexists. split; [done|].
  pose proof (forward_pointwise true l) as H1.
  pose proof (backward_pointwise (forward isText true l).2
                (forward isText true l).1) as H2.
  revert H1 H2.
  generalize (backward isText (forward isText true l).2
                (forward isText true l).1).1.
  generalize (forward isText true l).1.
  intros k m H1. revert m.
  induction H1 as [|x y l' k' Hxy H1 IH]; intros m H2.
  - inversion H2. constructor.
  - inversion H2 as [|? z ? m' Hyz H2']; subst. constructor; [|by apply IH].
    destruct Hxy as [->|[Hx ->]], Hyz as [->|[Hy ->]]; auto.
Qed.

Lemma forward_stable_adjacent g l :
  forward_stable isText g l = true →
  (∀ s, head l = Some s → g = true → isBlank s = false) ∧
  (∀ i a b, l !! i = Some a → l !! S i = Some b →
            isText a = true → isBlank b = false).
Proof.
  revert g. induction l as [|s r IH]; intros g; simpl; [done|].
  intros [H1 H2]%andb_true_iff. apply negb_true_iff in H1.
  destruct (IH _ H2) as [IH1 IH2]. split.
  - intros ? [= <-] ->. by rewrite andb_true_r in H1.
  - intros [|i] a b; simpl.
    + intros [= <-] Hb Ha. apply IH1; [|done]. by destruct r; simplify_eq/=.
    + apply IH2.
Qed.

Lemma backward_stable_adjacent g l :
  backward_stable isText g l = true →
  ∀ i a b, l !! i = Some a → l !! S i = Some b →
           isText b = true → isBlank a = false.
Proof.
  induction l as [|s r IH]; simpl; [done|].
  intros [H1 H2]%andb_true_iff. apply negb_true_iff in H2.
  intros [|i] a b; simpl.
  - intros [= <-] Hb Ht. destruct r as [|x r]; simplify_eq/=.
    rewrite Ht in H2. by rewrite andb_true_r in H2.
  - by apply IH.
Qed.

(** After the extension the first line is not blank, and no blank line
    comes right after or right before a text line. *)
Lemma extendRegions_adjacent l :
  ∃ l', extendRegions isText l = Some l' ∧
        (∀ s, head l' = Some s → isBlank s = false) ∧
        (∀ i a b, l' !! i = Some a → l' !! S i = Some b →
                  isText a = true → isBlank b = false) ∧
        (∀ i a b, l' !! i = Some a → l' !! S i = Some b →
                  isText b = true → isBlank a = false).
Proof.
  rewrite extendRegions_eq. eexists. split; [done|].
  pose proof (forward_is_stable _ isText_textPrefix true l) as Hst.
  destruct (forward isText true l) as [l1 f1]. simpl in *.
  pose proof (backward_keeps_forward_stable _ isText_textPrefix blank_not_text
                true f1 l1 Hst) as Hst2.
  destruct (forward_stable_adjacent _ _ Hst2) as [H1 H2].
  split; [intros s Hs; by apply H1|]. split; [done|].
  apply (backward_stable_adjacent f1), backward_is_stable; done.
Qed.

Lemma forward_last g l s :
  last l = Some s → isBlank s = false → last (forward isText g l).1 = Some s.
Proof.
  revert g. induction l as [|x r IH]; intros g; [done|].
  intros Hl Hs. simpl.
  destruct r as [|y r].
  - simpl in *. injection Hl as ->. by rewrite Hs.
  - rewrite last_cons in Hl.
    assert (last (y :: r) = Some s) as Hl'.
    { destruct (last (y :: r)) eqn:E; [done|]. by apply last_None in E. }
    destruct (isBlank x && g).
    + specialize (IH true Hl' Hs).
      pose proof (forward_length isText true (y :: r)) as Hlen.
      destruct (forward isText true (y :: r)) as [[|z t] f]; [done|].
      simpl in *. done.
    + specialize (IH (isText x) Hl' Hs).
      pose proof (forward_length isText (isText x) (y :: r)) as Hlen.
      destruct (forward isText (isText x) (y :: r)) as [[|z t] f]; [done|].
      simpl in *. done.
Qed.

Lemma backward_seed_irrelevant f f' l s :
  last l = Some s → isBlank s = false →
  backward isText f l = backward isText f' l.
Proof.
  induction l as [|x r IH]; [done|]. intros Hl Hs. simpl.
  destruct r as [|y r].
  - simpl in *. injection Hl as ->. by rewrite Hs.
  - rewrite last_cons in Hl.
    assert (last (y :: r) = Some s) as Hl'.
    { destruct (last (y :: r)) eqn:E; [done|]. by apply last_None in E. }
    by rewrite (IH Hl' Hs).
Qed.

(** The script's extension is the extension with the flag set again before
    the backward loop for every source that does not end with a blank
    line. *)
Lemma extendRegions_reseeded_same l :
  (∀ s, last l = Some s → isBlank s = false) →
  extendRegions isText l = extendRegions_reseeded isText l.
Proof.
  intros H. rewrite extendRegions_eq, extendRegions_reseeded_eq.
  destruct (last l) as [s|] eqn:Hl.
  - pose proof (forward_last true l s Hl (H s eq_refl)) as Hl1.
    by rewrite (backward_seed_irrelevant _ true _ s Hl1 (H s eq_refl)).
  - apply last_None in Hl. by subst l.
Qed.

End ExtenderMore.

(** X3.  The region extender always returns; it keeps the number of lines
    and rewrites nothing but blank lines, each to [textPrefix]: every line
    of the result is the source line at that place, or [textPrefix] where
    the source line was blank.  Both variants. *)
Theorem extension_rewrites_only_blank_lines l :
  (∃ l', extendRegions Impl.isText l = Some l' ∧ length l' = length l ∧
         Forall2 (λ s s', s' = s ∨ (isBlank s = true ∧ s' = textPrefix)) l l') ∧
  (∃ l', extendRegions Tutorial.isText l = Some l' ∧ length l' = length l ∧
         Forall2 (λ s s', s' = s ∨ (isBlank s = true ∧ s' = textPrefix)) l l').
Proof.
  split.
  - destruct (extendRegions_pointwise Impl.isText l) as (l' & H1 & H2).
    exists l'. repeat split; [done| |done]. symmetry. by eapply Forall2_length.
  - destruct (extendRegions_pointwise Tutorial.isText l) as (l' & H1 & H2).
    exists l'. repeat split; [done| |done]. symmetry. by eapply Forall2_length.
Qed.

(** X4.  In the extended source the first line is not blank, and no blank
    line comes right after a text line or right before one: the blank
    lines that are left lie between code lines, or between a code line and
    the end of the source.  Both variants. *)
Theorem extension_leaves_no_blank_line_next_to_text l :
  (∃ l', extendRegions Impl.isText l = Some l' ∧
     (∀ s, head l' = Some s → isBlank s = false) ∧
     (∀ i a b, l' !! i = Some a → l' !! S i = Some b →
               Impl.isText a = true → isBlank b = false) ∧
     (∀ i a b, l' !! i = Some a → l' !! S i = Some b →
               Impl.isText b = true → isBlank a = false)) ∧
  (∃ l', extendRegions Tutorial.isText l = Some l' ∧
     (∀ s, head l' = Some s → isBlank s = false) ∧
     (∀ i a b, l' !! i = Some a → l' !! S i = Some b →
               Tutorial.isText a = true → isBlank b = false) ∧
     (∀ i a b, l' !! i = Some a → l' !! S i = Some b →
               Tutorial.isText b = true → isBlank a = false)).
Proof.
  split.
  - apply extendRegions_adjacent;
      [apply Impl_isText_textPrefix|apply Impl_blank_not_text].
  - apply extendRegions_adjacent;
      [apply Tutorial_isText_textPrefix|apply Tutorial_blank_not_text].
Qed.

(** X5.  For a source that does not end with a blank line (the empty source
    included) the script's extension is the extension with the flag set to
    true again before the backward loop: the two differ only on sources
    that end with a blank line.  Both variants. *)
Theorem extension_reseeding_matters_only_after_last_blank_line l :
  (∀ s, last l = Some s → isBlank s = false) →
  extendRegions Impl.isText l = extendRegions_reseeded Impl.isText l ∧
  extendRegions Tutorial.isText l = extendRegions_reseeded Tutorial.isText l.
Proof.
  intros H. split; by apply extendRegions_reseeded_same.
Qed.

Lemma extension_reseeding_matters_only_after_last_blank_line_witness :
  extendRegions Impl.isText ["int x;"; ""; "/// a"; ""; "int y;"] =
    extendRegions_reseeded Impl.isText ["int x;"; ""; "/// a"; ""; "int y;"] ∧
  extendRegions Tutorial.isText ["int x;"; ""; "/// a"; ""; "int y;"] =
    extendRegions_reseeded Tutorial.isText
      ["int x;"; ""; "/// a"; ""; "int y;"].
Proof.
  apply (extension_reseeding_matters_only_after_last_blank_line
           ["int x;"; ""; "/// a"; ""; "int y;"]).
  by intros s [= <-].
Defined.

(** ** Output-block parser *)

Section ParserMore.

Lemma Impl_keys_kept seen d :
  d ∈ seen → Impl.isDelimiter d = true →
  Impl.keyOf d = Impl.blockKey (fold_left Impl.parseLine seen Impl.parser0) ∨
  is_Some (Impl.outputBlocks (fold_left Impl.parseLine seen Impl.parser0)
             !! Impl.keyOf d).
Proof.
  induction seen as [|x seen IH] using rev_ind; [by intros ?%elem_of_nil|].
  rewrite fold_left_app. cbn [fold_left].
  set (st := fold_left Impl.parseLine seen Impl.parser0) in *.
  intros [Hd|Hd%list_elem_of_singleton]%elem_of_app Hdel.
  - destruct (IH Hd Hdel) as [Hk|Hk]; unfold Impl.parseLine;
      destruct (Impl.isDelimiter x); simpl; auto; right; unfold Impl.flush.
    + rewrite <- Hk, (keyOf_truthy _ Hdel), lookup_insert_eq. eauto.
    + destruct (Py.truthy _); [|done]. rewrite lookup_insert_is_Some.
      destruct (decide (Impl.blockKey st = Impl.keyOf d)); auto.
  - subst d. left. by rewrite (parseLine_delim _ _ Hdel).
Qed.

Lemma Tutorial_keys_kept seen d :
  d ∈ seen → Tutorial.isDelimiter d = true →
  Tutorial.keyOf d = Tutorial.blockKey (fold_left Tutorial.parseLine seen Tutorial.parser0) ∨
  is_Some (Tutorial.outputBlocks (fold_left Tutorial.parseLine seen Tutorial.parser0)
             !! Tutorial.keyOf d).
Proof.
  induction seen as [|x seen IH] using rev_ind; [by intros ?%elem_of_nil|].
  rewrite fold_left_app. cbn [fold_left].
  set (st := fold_left Tutorial.parseLine seen Tutorial.parser0) in *.
  intros [Hd|Hd%list_elem_of_singleton]%elem_of_app Hdel.
  - destruct (Tutorial.isDelimiter x) eqn:Hx.
    + rewrite (Tutorial_parseLine_delim _ _ Hx).
      destruct (IH Hd Hdel) as [Hk|Hk].
      * rewrite <- Hk, (Tutorial_keyOf_truthy _ Hdel). simpl. right.
        rewrite lookup_insert_eq. eauto.
      * destruct (Py.truthy _); simpl; auto. right.
        rewrite lookup_insert_is_Some.
        destruct (decide (Tutorial.blockKey st = Tutorial.keyOf d)); auto.
    + unfold Tutorial.parseLine. rewrite Hx. simpl. by apply IH.
  - subst d. left. rewrite (Tutorial_parseLine_delim _ _ Hdel).
    by destruct (Py.truthy _).
Qed.

Lemma split_colon_0_no_colon s : ¬ Py.occurs ":" (Py.split_colon_0 s).
Proof.
  induction s as [|c s IH]; simpl; [tauto|].
  destruct (Ascii.eqb_spec c ":") as [->|Hc]; simpl; [tauto|].
  intros [H|H]; [by subst c|by apply IH].
Qed.

Lemma Impl_outputText_delete blocks k s out :
  Py.strip k ≠ k →
  Impl.outputText blocks s out = Impl.outputText (delete k blocks) s out.
Proof.
  intros Hk. unfold Impl.outputText. rewrite lookup_delete_ne; [done|].
  intros ->. by rewrite strip_idempotent in Hk.
Qed.

Lemma Tutorial_outputText_delete blocks k s out :
  Py.strip k ≠ k →
  Tutorial.outputText blocks s out =
  Tutorial.outputText (delete k blocks) s out.
Proof.
  intros Hk. unfold Tutorial.outputText. rewrite lookup_delete_ne; [done|].
  intros ->. by rewrite strip_idempotent in Hk.
Qed.

Lemma extendRegions_single isText s :
  isBlank s = false → extendRegions isText [s] = Some [s].
Proof. intros H. unfold extendRegions. simpl. unfold extendText. simpl.
  rewrite H. simpl. by rewrite H. Qed.

End ParserMore.

(** X6.  No block is lost: the keys of the table are exactly the keys that
    the delimiter lines of the program output open.  Both variants. *)
Theorem table_keys_are_the_delimiter_keys lines k :
  (is_Some (Impl.parseOutput lines !! k) ↔
   ∃ d, d ∈ lines ∧ Impl.isDelimiter d = true ∧ Impl.keyOf d = k) ∧
  (is_Some (Tutorial.parseOutput lines !! k) ↔
   ∃ d, d ∈ lines ∧ Tutorial.isDelimiter d = true ∧ Tutorial.keyOf d = k).
Proof.
  split; split.
  - intros [b (pre & d & mid & post & -> & Hd & Hk & _)%Impl_stored_block].
    exists d. split; [|done]. apply elem_of_app. right. by left.
  - intros (d & Hin & Hd & <-). unfold Impl.parseOutput.
    destruct (Impl_keys_kept lines d Hin Hd) as [Hk|Hk]; unfold Impl.flush.
    + rewrite <- Hk, (keyOf_truthy _ Hd), lookup_insert_eq. eauto.
    + destruct (Py.truthy _); [|done]. rewrite lookup_insert_is_Some.
      destruct (decide (Impl.blockKey
                          (fold_left Impl.parseLine lines Impl.parser0) =
                        Impl.keyOf d)); auto.
  - intros [b (pre & d & mid & post & -> & Hd & Hk & _)%Tutorial_stored_block].
    exists d. split; [|done]. apply elem_of_app. right. by left.
  - intros (d & Hin & Hd & <-). unfold Tutorial.parseOutput.
    destruct (Tutorial_keys_kept lines d Hin Hd) as [Hk|Hk];
      unfold Tutorial.flush.
    + rewrite <- Hk, (Tutorial_keyOf_truthy _ Hd), lookup_insert_eq. eauto.
    + destruct (Py.truthy _); [|done]. rewrite lookup_insert_is_Some.
      destruct (decide (Tutorial.blockKey
                          (fold_left Tutorial.parseLine lines Tutorial.parser0) =
                        Tutorial.keyOf d)); auto.
Qed.

(** X7.  The shape of the keys.  In [docs/implementing-tutorial] every key
    of the table is a trimmed string: stripping it changes nothing.  In
    [docs/tutorial] every key begins with [@OUTPUT] and has no colon. *)
Theorem table_keys_shape lines k :
  (is_Some (Impl.parseOutput lines !! k) → Py.strip k = k) ∧
  (is_Some (Tutorial.parseOutput lines !! k) →
   Py.startswith k "@OUTPUT" = true ∧ ¬ Py.occurs ":" k).
Proof.
  split.
  - intros [b (pre & d & mid & post & _ & _ & <- & _)%Impl_stored_block].
    apply strip_idempotent.
  - intros [b (pre & d & mid & post & _ & Hd & <- & _)%Tutorial_stored_block].
    split; [|apply split_colon_0_no_colon].
    unfold Tutorial.isDelimiter, Py.startswith in Hd.
    apply prefix_inv in Hd as [r ->]. unfold Tutorial.keyOf, Py.startswith.
    change (Py.split_colon_0 ("@OUTPUT" +:+ r))
      with ("@OUTPUT" +:+ Py.split_colon_0 r).
    apply prefix_app.
Qed.

Lemma table_keys_shape_witness :
  Py.strip "[out]" = "[out]".
Proof.
  apply (proj1 (table_keys_shape ["# [out] #"; "hello"] "[out]")).
  vm_compute. eauto.
Defined.

(** X8.  A stored block can be called for.  For a key [k] of the table, the
    one-line source [textPrefix + k] comes out as the block: its lines
    after [> ], between two [> ```] lines, after the line [>k:] in
    [docs/implementing-tutorial]; in [docs/tutorial] this needs the key to
    be a trimmed string. *)
Theorem stored_block_is_substituted lines k b :
  (Impl.parseOutput lines !! k = Some b →
   Impl.emdeer lines [textPrefix +:+ k] =
     Some ([">" +:+ k +:+ ":"; "> ```"] ++ map (λ x, "> " +:+ x) b
           ++ ["> ```"])) ∧
  (Tutorial.parseOutput lines !! k = Some b → Py.strip k = k →
   Tutorial.emdeer lines [textPrefix +:+ k] =
     Some (["> ```"] ++ map (λ x, "> " +:+ x) b ++ ["> ```"])).
Proof.
  assert (Py.startswith (textPrefix +:+ k) textPrefix = true) as Hp
    by apply prefix_app.
  assert (isBlank (textPrefix +:+ k) = false) as Hnb
    by (by apply startswith_textPrefix_not_blank).
  assert (Py.drop (String.length textPrefix) (textPrefix +:+ k) = k) as Hdrop
    by apply drop_app_length.
  split.
  - intros Hb.
    assert (Py.strip k = k) as Hk.
    { apply Impl_stored_block in Hb
        as (pre & d & mid & post & _ & _ & <- & _).
      apply strip_idempotent. }
    unfold Impl.emdeer. rewrite (extendRegions_single _ _ Hnb). simpl.
    f_equal. unfold Impl.transduce, Impl.run. cbn [fold_left].
    assert (Impl.isText (textPrefix +:+ k) = true) as Ht
      by (unfold Impl.isText; by rewrite Hp).
    pose proof (line_classes (textPrefix +:+ k))
      as (_ & _ & _ & _ & Hh & _). rewrite Ht in Hh. simpl in Hh.
    unfold Impl.step. simpl. rewrite Hh, Ht. unfold Impl.finish. simpl.
    unfold Impl.stripTextPrefix. rewrite Hdrop.
    assert (Impl.parseOutput lines !! Py.strip k = Some b) as Hb'
      by (by rewrite Hk).
    rewrite (Impl_outputText_block _ _ _ _ Hb'). by rewrite Hk.
  - intros Hb Hk.
    unfold Tutorial.emdeer. rewrite (extendRegions_single _ _ Hnb). simpl.
    f_equal. unfold Tutorial.transduce, Tutorial.run. cbn [fold_left].
    unfold Tutorial.step. simpl. unfold Tutorial.isText at 1. rewrite Hp.
    unfold Tutorial.finish. simpl.
    unfold Tutorial.stripPrefix. rewrite Hdrop.
    assert (Tutorial.parseOutput lines !! Py.strip k = Some b) as Hb'
      by (by rewrite Hk).
    by rewrite (Tutorial_outputText_block _ _ _ _ Hb').
Qed.

Lemma stored_block_is_substituted_witness :
  Impl.emdeer ["# [out] #"; ""; "hello"; "world"; ""] [textPrefix +:+ "[out]"] =
  Some ([">" +:+ "[out]" +:+ ":"; "> ```"]
        ++ map (λ x, "> " +:+ x) ["hello"; "world"] ++ ["> ```"]).
Proof.
  apply (proj1 (stored_block_is_substituted
                  ["# [out] #"; ""; "hello"; "world"; ""] "[out]"
                  ["hello"; "world"])).
  by vm_compute.
Defined.

(** X9.  A block whose key is not a trimmed string is never written: the
    text path looks up trimmed strings only, so the output is the same
    without the block.  [docs/tutorial] stores such keys, for a delimiter
    line with white space before its colon. *)
Theorem untrimmed_key_is_never_substituted blocks k src :
  Py.strip k ≠ k →
  Impl.transduce blocks src = Impl.transduce (delete k blocks) src ∧
  Tutorial.transduce blocks src = Tutorial.transduce (delete k blocks) src.
Proof.
  intros Hk. split.
  - unfold Impl.transduce, Impl.run. f_equal.
    generalize Impl.transducer0.
    induction src as [|s src IH]; intros st; [done|]. simpl.
    rewrite <- IH. f_equal. unfold Impl.step.
    by rewrite !(Impl_outputText_delete blocks k _ _ Hk).
  - unfold Tutorial.transduce, Tutorial.run. f_equal.
    generalize Tutorial.transducer0.
    induction src as [|s src IH]; intros st; [done|]. simpl.
    rewrite <- IH. f_equal. unfold Tutorial.step.
    by rewrite !(Tutorial_outputText_delete blocks k _ _ Hk).
Qed.

Lemma untrimmed_key_is_never_substituted_witness :
  Impl.transduce (Tutorial.parseOutput ["@OUTPUT a : 1"; "x"])
    ["/// @OUTPUT a "] =
    Impl.transduce
      (delete "@OUTPUT a " (Tutorial.parseOutput ["@OUTPUT a : 1"; "x"]))
      ["/// @OUTPUT a "] ∧
  Tutorial.transduce (Tutorial.parseOutput ["@OUTPUT a : 1"; "x"])
    ["/// @OUTPUT a "] =
    Tutorial.transduce
      (delete "@OUTPUT a " (Tutorial.parseOutput ["@OUTPUT a : 1"; "x"]))
      ["/// @OUTPUT a "].
Proof.
  apply (untrimmed_key_is_never_substituted
           (Tutorial.parseOutput ["@OUTPUT a : 1"; "x"]) "@OUTPUT a "
           ["/// @OUTPUT a "]).
  by vm_compute.
Defined.

(** ** Transducer *)

Section TransducerMore.

Variable blocks : gmap string (list string).

Lemma Impl_outputText_extends s out :
  out `prefix_of` Impl.outputText blocks s out.
Proof.
  destruct (blocks !! Py.strip s) as [b|] eqn:E.
  - rewrite (Impl_outputText_block _ _ _ _ E). by eexists.
  - rewrite (Impl_outputText_plain _ _ _ E). by eexists.
Qed.

Lemma Tutorial_outputText_extends s out :
  out `prefix_of` Tutorial.outputText blocks s out.
Proof.
  destruct (blocks !! Py.strip s) as [b|] eqn:E.
  - rewrite (Tutorial_outputText_block _ _ _ _ E). by eexists.
  - rewrite (Tutorial_outputText_plain _ _ _ E). by eexists.
Qed.

Lemma Impl_step_extends st s :
  Impl.outputFile st `prefix_of` Impl.outputFile (Impl.step blocks st s).
Proof.
  unfold Impl.step, outputLine.
  repeat (match goal with |- context [if ?c then _ else _] => destruct c end);
    simpl; try done; try apply Impl_outputText_extends;
    try (by apply prefix_app_r).
  - etrans; [|apply prefix_app_r; done]. by apply prefix_app_r.
  - etrans; [|apply Impl_outputText_extends]. by apply prefix_app_r.
Qed.

Lemma Tutorial_step_extends st s :
  Tutorial.outputFile st `prefix_of`
  Tutorial.outputFile (Tutorial.step blocks st s).
Proof.
  unfold Tutorial.step, outputLine.
  repeat (match goal with |- context [if ?c then _ else _] => destruct c end);
    simpl; try done; try apply Tutorial_outputText_extends;
    try (by apply prefix_app_r).
  - etrans; [|apply prefix_app_r; done]. by apply prefix_app_r.
  - etrans; [|apply Tutorial_outputText_extends]. by apply prefix_app_r.
Qed.

Lemma endHide_class s :
  Impl.isEndHide s = true →
  Impl.isBeginHide s = false ∧ Impl.isText s = false ∧ Impl.isCode s = true.
Proof.
  intros H. pose proof (line_classes s)
    as (_ & _ & _ & _ & _ & Ht & Hb & _).
  rewrite H, andb_true_r in Ht, Hb. unfold Impl.isCode. by rewrite Ht, Hb.
Qed.

End TransducerMore.

(** X10.  The output is written once: whatever lines the transducer goes on
    to read, the lines written so far stay as they are, at the head of the
    output.  Both variants. *)
Theorem output_is_append_only blocks src :
  (∀ st, Impl.outputFile st `prefix_of`
         Impl.outputFile (Impl.run blocks st src)) ∧
  (∀ st, Tutorial.outputFile st `prefix_of`
         Tutorial.outputFile (Tutorial.run blocks st src)).
Proof.
  split; induction src as [|s src IH]; intros st; simpl; try done.
  - etrans; [apply (Impl_step_extends blocks st s)|apply IH].
  - etrans; [apply (Tutorial_step_extends blocks st s)|apply IH].
Qed.

(** X11.  A hide-end line outside a hide region is a code line: in the text
    state it opens a fence and is written, in the code state it is
    written; either way the line is in the output and the state is
    ["code"]. *)
Theorem stray_hide_end_is_written_as_code blocks st s :
  Impl.isEndHide s = true →
  (Impl.isOutputting st = "text" →
   Impl.step blocks st s =
     {| Impl.savedOutputting := Impl.savedOutputting st;
        Impl.isOutputting := "code";
        Impl.outputFile := Impl.outputFile st ++ [codeBegin; s] |}) ∧
  (Impl.isOutputting st = "code" →
   Impl.step blocks st s =
     {| Impl.savedOutputting := Impl.savedOutputting st;
        Impl.isOutputting := "code";
        Impl.outputFile := Impl.outputFile st ++ [s] |}).
Proof.
  intros (Hb & Ht & Hc)%endHide_class. unfold Impl.step, outputLine.
  split; intros ->; simpl; rewrite Hb, ?Ht, ?Hc; [|done].
  by rewrite <- app_assoc.
Qed.

Lemma stray_hide_end_is_written_as_code_witness :
  Impl.step ∅ (Impl.run ∅ Impl.transducer0 ["/// a"]) "MD_END_HIDE" =
  {| Impl.savedOutputting :=
       Impl.savedOutputting (Impl.run ∅ Impl.transducer0 ["/// a"]);
     Impl.isOutputting := "code";
     Impl.outputFile :=
       Impl.outputFile (Impl.run ∅ Impl.transducer0 ["/// a"])
       ++ [codeBegin; "MD_END_HIDE"] |}.
Proof.
  apply (proj1 (stray_hide_end_is_written_as_code ∅
                  (Impl.run ∅ Impl.transducer0 ["/// a"]) "MD_END_HIDE"
                  eq_refl)).
  reflexivity.
Defined.

(** X12.  A hide region that is not closed takes the rest of the source
    with it: after a hide-begin line that no hide-end line follows,
    nothing more is written, not even the fence-close marker of a fence
    that is open. *)
Theorem unclosed_hide_region_swallows_the_rest blocks pre b rest :
  Impl.isOutputting (Impl.run blocks Impl.transducer0 pre) ≠ "hidden" →
  Impl.isBeginHide b = true →
  Forall (λ x, Impl.isEndHide x = false) rest →
  Impl.transduce blocks (pre ++ b :: rest) =
  Impl.outputFile (Impl.run blocks Impl.transducer0 pre).
Proof.
  intros Hn Hb Hrest. unfold Impl.transduce.
  rewrite run_app. cbn [Impl.run fold_left].
  rewrite (step_beginHide _ _ _ Hn Hb).
  change (fold_left (Impl.step blocks) rest ?st) with (Impl.run blocks st rest).
  by rewrite run_hidden.
Qed.

Lemma unclosed_hide_region_swallows_the_rest_witness :
  Impl.transduce ∅ (["/// a"; "int x;"] ++ "MD_BEGIN_HIDE" :: ["int y;"; "/// b"]) =
  Impl.outputFile (Impl.run ∅ Impl.transducer0 ["/// a"; "int x;"]).
Proof.
  apply (unclosed_hide_region_swallows_the_rest ∅ ["/// a"; "int x;"]
           "MD_BEGIN_HIDE" ["int y;"; "/// b"]).
  - by vm_compute.
  - reflexivity.
  - repeat constructor.
Defined.

(** X13.  Nothing is lost and nothing is made up.  Take a source with no
    hide-begin line, no line that reads as a fence marker, and no text
    line that calls for a block.  The output without its fence markers is
    the source, line for line: the code lines as they are, the text lines
    without their first four bytes.  Both variants ([docs/tutorial] has no
    hide regions). *)
Theorem output_without_fences_is_the_source blocks src :
  Forall no_marker src →
  Forall (λ s, blocks !! Py.strip (Py.drop 4 s) = None) src →
  (Forall (λ s, Impl.isBeginHide s = false) src →
   filter (λ x, x ≠ codeBegin ∧ x ≠ codeEnd) (Impl.transduce blocks src) =
   map (λ s, if Impl.isText s then Py.drop 4 s else s) src) ∧
  filter (λ x, x ≠ codeBegin ∧ x ≠ codeEnd) (Tutorial.transduce blocks src) =
  map (λ s, if Tutorial.isText s then Py.drop 4 s else s) src.
Proof.
  intros Hm Hk.
  assert (∀ x, x ≠ codeBegin → x ≠ codeEnd →
            filter (λ x, x ≠ codeBegin ∧ x ≠ codeEnd) [x] = [x]) as Hkeep.
  { intros x H1 H2. rewrite filter_cons.
    destruct (decide (x ≠ codeBegin ∧ x ≠ codeEnd)); [done|tauto]. }
  assert (filter (λ x, x ≠ codeBegin ∧ x ≠ codeEnd) [codeBegin] = []) as Hb
    by (by vm_compute).
  assert (filter (λ x, x ≠ codeBegin ∧ x ≠ codeEnd) [codeEnd] = []) as He
    by (by vm_compute).
  split.
  - intros Hh. unfold Impl.transduce.
    assert (let st := Impl.run blocks Impl.transducer0 src in
            (Impl.isOutputting st = "text" ∨ Impl.isOutputting st = "code") ∧
            filter (λ x, x ≠ codeBegin ∧ x ≠ codeEnd) (Impl.outputFile st) =
            map (λ s, if Impl.isText s then Py.drop 4 s else s) src)
      as [Hst Hout].
    { induction src as [|s src IH] using rev_ind; [by split; [left|]|].
      apply Forall_app in Hm as [Hm (N1 & N2 & N3 & N4)%Forall_inv].
      apply Forall_app in Hk as [Hk Hks%Forall_inv].
      apply Forall_app in Hh as [Hh Hhs%Forall_inv].
      destruct (IH Hm Hk Hh) as [IH1 IH2]. clear IH.
      rewrite run_app, map_app. cbn [Impl.run fold_left map].
      set (st := Impl.run blocks Impl.transducer0 src) in *.
      unfold Impl.step, Impl.isCode, Impl.stripTextPrefix, outputLine.
      change (String.length textPrefix) with 4.
      destruct IH1 as [-> | ->]; simpl; rewrite Hhs;
        destruct (Impl.isText s) eqn:Ht; simpl;
        rewrite ?(Impl_outputText_plain _ _ _ Hks);
        rewrite ?filter_app, ?Hb, ?He, ?Hkeep, IH2 by done;
        rewrite ?app_nil_r; auto. }
    unfold Impl.finish, outputLine.
    destruct Hst as [-> | ->]; simpl; [done|].
    by rewrite filter_app, He, app_nil_r.
  - unfold Tutorial.transduce.
    assert (let st := Tutorial.run blocks Tutorial.transducer0 src in
            (Tutorial.isOutputting st = "text" ∨
             Tutorial.isOutputting st = "code") ∧
            filter (λ x, x ≠ codeBegin ∧ x ≠ codeEnd) (Tutorial.outputFile st) =
            map (λ s, if Tutorial.isText s then Py.drop 4 s else s) src)
      as [Hst Hout].
    { induction src as [|s src IH] using rev_ind; [by split; [left|]|].
      apply Forall_app in Hm as [Hm (N1 & N2 & N3 & N4)%Forall_inv].
      apply Forall_app in Hk as [Hk Hks%Forall_inv].
      destruct (IH Hm Hk) as [IH1 IH2]. clear IH.
      unfold Tutorial.run in *. rewrite fold_left_app, map_app.
      cbn [fold_left map].
      set (st := fold_left (Tutorial.step blocks) src Tutorial.transducer0) in *.
      unfold Tutorial.step, Tutorial.isCode, Tutorial.stripPrefix, outputLine.
      change (String.length textPrefix) with 4.
      destruct IH1 as [-> | ->]; simpl;
        destruct (Tutorial.isText s) eqn:Ht; simpl;
        rewrite ?(Tutorial_outputText_plain _ _ _ Hks);
        rewrite ?filter_app, ?Hb, ?He, ?Hkeep, IH2 by done;
        rewrite ?app_nil_r; auto. }
    unfold Tutorial.finish, outputLine.
    destruct Hst as [-> | ->]; simpl; [done|].
    by rewrite filter_app, He, app_nil_r.
Qed.

Lemma output_without_fences_is_the_source_witness :
  filter (λ x, x ≠ codeBegin ∧ x ≠ codeEnd)
    (Tutorial.transduce ∅ ["/// a"; "int x;"; "MD_END_HIDE"; "/// b"]) =
  map (λ s, if Tutorial.isText s then Py.drop 4 s else s)
    ["/// a"; "int x;"; "MD_END_HIDE"; "/// b"].
Proof.
  apply (output_without_fences_is_the_source ∅
           ["/// a"; "int x;"; "MD_END_HIDE"; "/// b"]).
  - repeat constructor; by vm_compute.
  - repeat constructor.
Defined.

(** ** Files, trailer and command line *)

Section Files.

Lemma no_line_end_nil : no_line_end "".
Proof. split; simpl; tauto. Qed.

Lemma no_line_end_app a b :
  no_line_end a → no_line_end b → no_line_end (a +:+ b).
Proof. intros [H1 H2] [H3 H4]. split; rewrite occurs_app; tauto. Qed.

Lemma no_line_end_cons c s :
  c ≠ "010"%char → c ≠ "013"%char → no_line_end s → no_line_end (String c s).
Proof. intros H1 H2 [H3 H4]. split; simpl; intros [H|H]; auto. Qed.

Lemma no_line_end_strip s : no_line_end s → no_line_end (Py.strip s).
Proof. intros [H1 H2]. split; intros H%occurs_strip_inv; auto. Qed.

Lemma no_line_end_drop n s : no_line_end s → no_line_end (Py.drop n s).
Proof. intros [H1 H2]. split; intros H%occurs_drop_inv; auto. Qed.

Ltac literal := repeat (apply no_line_end_cons; [done|done|]); try apply no_line_end_nil.

Lemma no_line_end_textPrefix : no_line_end textPrefix.
Proof. unfold textPrefix. literal. Qed.

(** The lines that [splitlines] returns have no line end in them. *)
Lemma splitlines_from_no_line_end text :
  ∀ cur, no_line_end cur → Forall no_line_end (splitlines_from cur text).
Proof.
  assert (∀ n text, String.length text < n →
            ∀ cur, no_line_end cur →
                   Forall no_line_end (splitlines_from cur text)) as H.
  { clear text. induction n as [|n IH]; intros text Hn cur Hcur; [lia|].
    destruct text as [|c r]; simpl.
    - destruct (Py.truthy cur); [by constructor|constructor].
    - simpl in Hn.
      destruct (Ascii.eqb_spec c "010") as [->|N1].
      { constructor; [done|]. apply IH; [lia|apply no_line_end_nil]. }
      destruct (Ascii.eqb_spec c "013") as [->|N2].
      { destruct r as [|d r']; [constructor; [done|constructor]|]. simpl in Hn.
        destruct (Ascii.eqb d "010"); (constructor; [done|]);
          (apply IH; [simpl; lia|apply no_line_end_nil]). }
      apply IH; [lia|]. apply no_line_end_app; [done|].
      apply no_line_end_cons; [done|done|apply no_line_end_nil]. }
  apply (H (S (String.length text))). lia.
Qed.

Lemma splitlines_no_line_end text : Forall no_line_end (splitlines text).
Proof. apply splitlines_from_no_line_end, no_line_end_nil. Qed.

Lemma splitlines_from_line cur s rest :
  no_line_end s →
  splitlines_from cur (s +:+ String "010" rest) =
  (cur +:+ s) :: splitlines_from "" rest.
Proof.
  revert cur. induction s as [|c s IH]; intros cur [H1 H2].
  - rewrite str_app_nil_l, str_app_nil_r. reflexivity.
  - rewrite str_app_cons. simpl in H1, H2. simpl.
    destruct (Ascii.eqb_spec c "010") as [->|N1]; [tauto|].
    destruct (Ascii.eqb_spec c "013") as [->|N2]; [tauto|].
    rewrite IH by (split; tauto).
    by rewrite str_app_assoc.
Qed.

Lemma splitlines_file_text lines :
  Forall no_line_end lines → splitlines (file_text lines) = lines.
Proof.
  unfold splitlines. induction 1 as [|s l Hs Hl IH]; [done|].
  simpl. rewrite splitlines_from_line by done. by rewrite IH.
Qed.

(** *** The lines written have no line end *)

Lemma Forall_extended (P : string → Prop) (l l' : list string) :
  Forall2 (λ s s', s' = s ∨ (isBlank s = true ∧ s' = textPrefix)) l l' →
  P textPrefix → Forall P l → Forall P l'.
Proof.
  intros H Hp. induction H as [|s s' l l' [->|[_ ->]] H IH];
    intros Hl; [done|..]; apply Forall_cons in Hl as [? ?];
    constructor; auto.
Qed.

Lemma Impl_table_lines (P : string → Prop) lines k b :
  Forall P lines → Impl.parseOutput lines !! k = Some b → Forall P b.
Proof.
  intros Hl (pre & d & mid & post & -> & _ & _ & _ & _ & ->)%Impl_stored_block.
  apply stripBlankLines_Forall.
  apply Forall_app in Hl as [_ Hl]. apply Forall_cons in Hl as [_ Hl].
  by apply Forall_app in Hl as [Hl _].
Qed.

Lemma Tutorial_table_lines (P : string → Prop) lines k b :
  Forall P lines → Tutorial.parseOutput lines !! k = Some b → Forall P b.
Proof.
  intros Hl
    (pre & d & mid & post & -> & _ & _ & _ & _ & ->)%Tutorial_stored_block.
  apply Forall_app in Hl as [Hpre Hl]. apply Forall_cons in Hl as [Hd Hl].
  apply Forall_app in Hl as [Hl _].
  apply Forall_app. split; [by destruct (forallb _ pre)|by constructor].
Qed.

Lemma quoted_no_line_end b :
  Forall no_line_end b → Forall no_line_end (map (λ x, "> " +:+ x) b).
Proof.
  induction 1 as [|x b Hx Hb IH]; simpl; constructor; [|done].
  apply no_line_end_app; [literal|done].
Qed.

Lemma Impl_outputText_no_line_end blocks s out :
  (∀ k b, blocks !! k = Some b → Forall no_line_end b) →
  no_line_end s → Forall no_line_end out →
  Forall no_line_end (Impl.outputText blocks s out).
Proof.
  intros Hb Hs Hout. destruct (blocks !! Py.strip s) as [b|] eqn:E.
  - rewrite (Impl_outputText_block _ _ _ _ E).
    apply Forall_app. split; [done|]. apply Forall_app. split.
    + apply Forall_cons. split.
      * apply no_line_end_app; [literal|].
        apply no_line_end_app; [by apply no_line_end_strip|literal].
      * apply Forall_cons. split; [literal|apply Forall_nil_2].
    + apply Forall_app. split; [apply quoted_no_line_end; eauto|].
      apply Forall_cons. split; [literal|apply Forall_nil_2].
  - rewrite (Impl_outputText_plain _ _ _ E). apply Forall_app.
    split; [done|]. apply Forall_cons. split; [done|apply Forall_nil_2].
Qed.

Lemma Tutorial_outputText_no_line_end blocks s out :
  (∀ k b, blocks !! k = Some b → Forall no_line_end b) →
  no_line_end s → Forall no_line_end out →
  Forall no_line_end (Tutorial.outputText blocks s out).
Proof.
  intros Hb Hs Hout. destruct (blocks !! Py.strip s) as [b|] eqn:E.
  - rewrite (Tutorial_outputText_block _ _ _ _ E).
    apply Forall_app. split; [done|]. apply Forall_app. split.
    + apply Forall_cons. split; [literal|apply Forall_nil_2].
    + apply Forall_app. split; [apply quoted_no_line_end; eauto|].
      apply Forall_cons. split; [literal|apply Forall_nil_2].
  - rewrite (Tutorial_outputText_plain _ _ _ E). apply Forall_app.
    split; [done|]. apply Forall_cons. split; [done|apply Forall_nil_2].
Qed.

Lemma Impl_transduce_no_line_end blocks src :
  (∀ k b, blocks !! k = Some b → Forall no_line_end b) →
  Forall no_line_end src → Forall no_line_end (Impl.transduce blocks src).
Proof.
  intros Hb Hsrc. unfold Impl.transduce.
  assert (Forall no_line_end
            (Impl.outputFile (Impl.run blocks Impl.transducer0 src))) as H.
  { unfold Impl.run.
    assert (Forall no_line_end (Impl.outputFile Impl.transducer0))
      as Hst by constructor.
    revert Hst. generalize Impl.transducer0.
    induction Hsrc as [|s src Hs Hsrc IH]; intros st Hst; [done|].
    simpl. apply IH. unfold Impl.step, Impl.stripTextPrefix, outputLine.
    repeat (match goal with |- context [if ?c then _ else _] => destruct c end);
      cbn [Impl.outputFile]; try done;
      repeat first
        [ apply Impl_outputText_no_line_end
        | apply no_line_end_drop
        | apply Forall_app; split
        | apply Forall_cons; split
        | apply Forall_nil_2
        | done
        | by (unfold codeBegin, codeEnd; literal) ]. }
  unfold Impl.finish, outputLine. destruct (String.eqb _ _); [|done].
  apply Forall_app. split; [done|].
  apply Forall_cons. split; [unfold codeEnd; literal|apply Forall_nil_2].
Qed.

Lemma Tutorial_transduce_no_line_end blocks src :
  (∀ k b, blocks !! k = Some b → Forall no_line_end b) →
  Forall no_line_end src → Forall no_line_end (Tutorial.transduce blocks src).
Proof.
  intros Hb Hsrc. unfold Tutorial.transduce.
  assert (Forall no_line_end
            (Tutorial.outputFile
               (Tutorial.run blocks Tutorial.transducer0 src))) as H.
  { unfold Tutorial.run.
    assert (Forall no_line_end (Tutorial.outputFile Tutorial.transducer0))
      as Hst by constructor.
    revert Hst. generalize Tutorial.transducer0.
    induction Hsrc as [|s src Hs Hsrc IH]; intros st Hst; [done|].
    simpl. apply IH. unfold Tutorial.step, Tutorial.stripPrefix, outputLine.
    repeat (match goal with |- context [if ?c then _ else _] => destruct c end);
      cbn [Tutorial.outputFile]; try done;
      repeat first
        [ apply Tutorial_outputText_no_line_end
        | apply no_line_end_drop
        | apply Forall_app; split
        | apply Forall_cons; split
        | apply Forall_nil_2
        | done
        | by (unfold codeBegin, codeEnd; literal) ]. }
  unfold Tutorial.finish, outputLine. destruct (String.eqb _ _); [|done].
  apply Forall_app. split; [done|].
  apply Forall_cons. split; [unfold codeEnd; literal|apply Forall_nil_2].
Qed.

Lemma str_take_app a b : str_take (String.length a) (a +:+ b) = a.
Proof.
  induction a as [|c a IH]; [by destruct b|].
  rewrite str_app_cons. simpl. by rewrite IH.
Qed.

End Files.

Ltac no_line_end_literal :=
  repeat (apply no_line_end_cons; [done|done|]); apply no_line_end_nil.

Ltac no_line_end_literals :=
  repeat (apply Forall_cons; split; [no_line_end_literal|]);
  apply Forall_nil_2.

Lemma emdeer_no_line_end programOutputLines sourceLines :
  Forall no_line_end programOutputLines → Forall no_line_end sourceLines →
  (∃ body, Impl.emdeer programOutputLines sourceLines = Some body ∧
           Forall no_line_end body) ∧
  (∃ body, Tutorial.emdeer programOutputLines sourceLines = Some body ∧
           Forall no_line_end body).
Proof.
  intros Hp Hs. split.
  - destruct (extendRegions_pointwise Impl.isText sourceLines) as (l' & E & H).
    unfold Impl.emdeer. rewrite E. simpl. eexists. split; [done|].
    apply Impl_transduce_no_line_end.
    + intros k b. by apply Impl_table_lines.
    + by apply (Forall_extended _ _ _ H no_line_end_textPrefix).
  - destruct (extendRegions_pointwise Tutorial.isText sourceLines)
      as (l' & E & H).
    unfold Tutorial.emdeer. rewrite E. simpl. eexists. split; [done|].
    apply Tutorial_transduce_no_line_end.
    + intros k b. by apply Tutorial_table_lines.
    + by apply (Forall_extended _ _ _ H no_line_end_textPrefix).
Qed.

Lemma trailer_no_line_end name utcnow :
  no_line_end name → no_line_end utcnow →
  Forall no_line_end (trailer name utcnow).
Proof.
  intros Hn Hu. unfold trailer.
  apply Forall_cons. split; [apply no_line_end_nil|].
  apply Forall_cons. split; [|apply Forall_nil_2].
  repeat first
    [ done
    | apply no_line_end_nil
    | apply no_line_end_cons; [done|done|]
    | apply no_line_end_app ].
Qed.

(** X14.  One call of [outputLine], one line of the file: when no line
    written has a line end in it, reading the file back with [splitlines]
    gives the lines written, in order. *)
Theorem written_lines_are_read_back outputFile :
  Forall no_line_end outputFile →
  splitlines (file_text outputFile) = outputFile.
Proof. apply splitlines_file_text. Qed.

Lemma written_lines_are_read_back_witness :
  splitlines (file_text ["a"; ""; "```c++"; "int x;"; "```"]) =
  ["a"; ""; "```c++"; "int x;"; "```"].
Proof.
  apply (written_lines_are_read_back ["a"; ""; "```c++"; "int x;"; "```"]).
  no_line_end_literals.
Defined.

(** X15.  The whole script, from the texts it reads to the text it writes.
    Whatever the source file and the captured output hold, the script gets
    to the end, writes to the file named after the source with [.md]
    added, and the lines of that file are the lines of the transducer
    followed by an empty line and the provenance line: no text of the
    inputs can open a line of its own in the output.  This needs a file
    name and a time stamp with no line end in them.  Both variants. *)
Theorem script_output_lines argv sourceText programOutput utcnow :
  Forall no_line_end argv → no_line_end utcnow →
  (∃ body,
     Impl.emdeer (splitlines programOutput) (splitlines sourceText) =
       Some body ∧
     let name := sourceFileName "04-default-behavior.cpp" argv in
     ∃ text,
       Impl_script argv sourceText programOutput utcnow =
         Some (name +:+ ".md", text) ∧
       splitlines text = body ++ trailer name utcnow) ∧
  (∃ body,
     Tutorial.emdeer (splitlines programOutput) (splitlines sourceText) =
       Some body ∧
     let name := sourceFileName "01-boxed-function-pointer.cpp" argv in
     ∃ text,
       Tutorial_script argv sourceText programOutput utcnow =
         Some (name +:+ ".md", text) ∧
       splitlines text = body ++ trailer name utcnow).
Proof.
  intros Hargv Hu.
  assert (∀ d, no_line_end d → no_line_end (sourceFileName d argv)) as Hname.
  { intros d Hd. unfold sourceFileName.
    destruct argv as [|a [|b [|c r]]]; try done.
    apply Forall_cons in Hargv as [_ Hargv].
    by apply Forall_cons in Hargv as [? _]. }
  destruct (emdeer_no_line_end (splitlines programOutput) (splitlines sourceText)
              (splitlines_no_line_end _) (splitlines_no_line_end _))
    as [(b1 & E1 & H1) (b2 & E2 & H2)].
  split.
  - exists b1. split; [done|]. intros name. eexists. split.
    + unfold Impl_script, script. rewrite E1. reflexivity.
    + apply splitlines_file_text, Forall_app. split; [done|].
      apply trailer_no_line_end; [|done]. apply Hname.
      repeat (apply no_line_end_cons; [done|done|]). apply no_line_end_nil.
  - exists b2. split; [done|]. intros name. eexists. split.
    + unfold Tutorial_script, script. rewrite E2. reflexivity.
    + apply splitlines_file_text, Forall_app. split; [done|].
      apply trailer_no_line_end; [|done]. apply Hname.
      repeat (apply no_line_end_cons; [done|done|]). apply no_line_end_nil.
Qed.

Lemma script_output_lines_witness :
  ∃ body,
    Impl.emdeer (splitlines "# [out] #") (splitlines "/// [out]") = Some body ∧
    let name := sourceFileName "04-default-behavior.cpp" ["emdeer.py"; "a.cpp"] in
    ∃ text,
      Impl_script ["emdeer.py"; "a.cpp"] "/// [out]" "# [out] #" "2015-06-01" =
        Some (name +:+ ".md", text) ∧
      splitlines text = body ++ trailer name "2015-06-01".
Proof.
  apply (proj1 (script_output_lines ["emdeer.py"; "a.cpp"] "/// [out]"
                  "# [out] #" "2015-06-01"
                  ltac:(no_line_end_literals) ltac:(no_line_end_literal))).
Defined.

(** X16.  [grip_hook.py] undoes the file name of [emdeer.py]: called with
    the name of a file that either variant of [emdeer.py] writes for the
    argument [n], it runs [emdeer.py n] when [n] is a file, and nothing
    otherwise.  It cuts the last three bytes of its argument whatever they
    are, and without an argument it stops with an error. *)
Theorem grip_hook_runs_emdeer_on_the_source isfile default p q n :
  grip_sourceFileName (n +:+ ".md") = n ∧
  grip_hook isfile [p; outputFileName default [q; n]] =
    Some (if isfile n then ["emdeer.py " +:+ n] else []) ∧
  grip_hook isfile [p] = None ∧
  (∀ e, String.length e = 3 →
        grip_hook isfile [p; n +:+ e] =
        Some (if isfile n then ["emdeer.py " +:+ n] else [])).
Proof.
  assert (∀ e, String.length e = 3 → grip_sourceFileName (n +:+ e) = n) as H.
  { intros e He. unfold grip_sourceFileName. rewrite str_app_length, He.
    replace (String.length n + 3 - 3) with (String.length n) by lia.
    apply str_take_app. }
  repeat split.
  - by apply H.
  - unfold grip_hook, outputFileName. simpl. by rewrite H.
  - intros e He. unfold grip_hook. simpl. by rewrite H.
Qed.

(** ** The two variants side by side, and more on the table *)

Section Composition.

Lemma Impl_flush_over m key bl :
  Impl.flush {| Impl.outputBlocks := m; Impl.blockKey := key;
                Impl.blockLines := bl |} =
  Impl.flush {| Impl.outputBlocks := ∅; Impl.blockKey := key;
                Impl.blockLines := bl |} ∪ m.
Proof.
  unfold Impl.flush. simpl. destruct (Py.truthy key).
  - by rewrite insert_union_singleton_l, insert_empty.
  - by rewrite (left_id_L ∅ (∪)).
Qed.

(** The blocks stored before a run of the parser loop lie under the blocks
    that the run stores. *)
Lemma Impl_parse_over r m key bl :
  Impl.flush (fold_left Impl.parseLine r
                {| Impl.outputBlocks := m; Impl.blockKey := key;
                   Impl.blockLines := bl |}) =
  Impl.flush (fold_left Impl.parseLine r
                {| Impl.outputBlocks := ∅; Impl.blockKey := key;
                   Impl.blockLines := bl |}) ∪ m.
Proof.
  revert m key bl. induction r as [|x r IH]; intros m key bl.
  - apply Impl_flush_over.
  - simpl. unfold Impl.parseLine at 2 4.
    destruct (Impl.isDelimiter x); cbn [Impl.outputBlocks Impl.blockKey
                                          Impl.blockLines]; [|apply IH].
    rewrite IH. symmetry. rewrite IH. symmetry.
    rewrite (Impl_flush_over m). by rewrite (assoc_L (∪)).
Qed.

Lemma Impl_step_no_key blocks st s :
  blocks !! Py.strip (Py.drop 4 s) = None →
  Impl.step blocks st s = Impl.step ∅ st s.
Proof.
  intros H. unfold Impl.step, Impl.stripTextPrefix.
  change (String.length textPrefix) with 4.
  rewrite !(Impl_outputText_plain blocks _ _ H).
  by rewrite !(Impl_outputText_plain ∅ (Py.drop 4 s) _ (lookup_empty _)).
Qed.

Lemma Tutorial_step_no_key blocks st s :
  blocks !! Py.strip (Py.drop 4 s) = None →
  Tutorial.step blocks st s = Tutorial.step ∅ st s.
Proof.
  intros H. unfold Tutorial.step, Tutorial.stripPrefix.
  change (String.length textPrefix) with 4.
  rewrite !(Tutorial_outputText_plain blocks _ _ H).
  by rewrite !(Tutorial_outputText_plain ∅ (Py.drop 4 s) _ (lookup_empty _)).
Qed.

Lemma Tutorial_run_fences blocks src :
  Forall no_marker src →
  let st := Tutorial.run blocks Tutorial.transducer0 src in
  (Tutorial.isOutputting st = "text" ∨ Tutorial.isOutputting st = "code") ∧
  count_line codeBegin (Tutorial.outputFile st) =
    count_line codeEnd (Tutorial.outputFile st) + Tutorial_open_fences st.
Proof.
  induction src as [|s src IH] using rev_ind; [by split; [left|]|].
  intros [Hsrc Hs%Forall_inv]%Forall_app.
  unfold Tutorial.run. rewrite fold_left_app. cbn [fold_left].
  destruct (IH Hsrc) as [IH1 IH2].
  destruct (Tutorial_step_fences blocks _ s Hs IH1) as [H1 H2].
  split; [done|]. by apply H2.
Qed.

End Composition.

(** X17.  The later variant does what the earlier one does on a source
    that uses nothing new: with the same table, no hide-begin line, no
    line that only [docs/implementing-tutorial] takes for text (the bare
    token with white space around it), and no text line that calls for a
    block (the two write blocks differently), the two transducers write the
    same output. *)
Theorem variants_write_the_same_output blocks src :
  Forall (λ s, Impl.isBeginHide s = false) src →
  Forall (λ s, Impl.isText s = Tutorial.isText s) src →
  Forall (λ s, blocks !! Py.strip (Py.drop 4 s) = None) src →
  Impl.transduce blocks src = Tutorial.transduce blocks src.
Proof.
  intros Hh Ht Hk. unfold Impl.transduce, Tutorial.transduce.
  assert (let a := Impl.run blocks Impl.transducer0 src in
          let b := Tutorial.run blocks Tutorial.transducer0 src in
          Impl.isOutputting a = Tutorial.isOutputting b ∧
          Impl.outputFile a = Tutorial.outputFile b ∧
          (Impl.isOutputting a = "text" ∨ Impl.isOutputting a = "code"))
    as (H1 & H2 & H3).
  { induction src as [|s src IH] using rev_ind; [by repeat split; auto|].
    apply Forall_app in Hh as [Hh Hhs%Forall_inv].
    apply Forall_app in Ht as [Ht Hts%Forall_inv].
    apply Forall_app in Hk as [Hk Hks%Forall_inv].
    destruct (IH Hh Ht Hk) as (IH1 & IH2 & IH3). clear IH.
    rewrite run_app. unfold Tutorial.run in *. rewrite fold_left_app.
    cbn [Impl.run fold_left].
    set (a := Impl.run blocks Impl.transducer0 src) in *.
    set (b := fold_left (Tutorial.step blocks) src Tutorial.transducer0) in *.
    unfold Impl.step, Tutorial.step, Impl.isCode, Tutorial.isCode,
      Impl.stripTextPrefix, Tutorial.stripPrefix.
    rewrite <- IH1, <- IH2, <- Hts, Hhs.
    rewrite !(Impl_outputText_plain _ _ _ Hks).
    rewrite !(Tutorial_outputText_plain _ _ _ Hks).
    destruct IH3 as [-> | ->]; simpl; destruct (Impl.isText s); simpl; auto. }
  unfold Impl.finish, Tutorial.finish. by rewrite <- H1, <- H2.
Qed.

Lemma variants_write_the_same_output_witness :
  Impl.transduce {[ "[out]" := ["x"] ]}
    ["/// a"; ""; "int x;"; "MD_END_HIDE"; "/// b"] =
  Tutorial.transduce {[ "[out]" := ["x"] ]}
    ["/// a"; ""; "int x;"; "MD_END_HIDE"; "/// b"].
Proof.
  apply (variants_write_the_same_output {[ "[out]" := ["x"] ]}
           ["/// a"; ""; "int x;"; "MD_END_HIDE"; "/// b"]);
    repeat constructor.
Defined.

(** X18.  Fences do not nest.  At every point of a run over a source with
    no line that reads as a fence marker, the fence-open markers written
    so far are as many as the fence-close markers, or one more.  Both
    variants. *)
Theorem fences_never_nest blocks src n :
  Forall no_marker src →
  (let out := Impl.outputFile
                (Impl.run blocks Impl.transducer0 (take n src)) in
   count_line codeEnd out ≤ count_line codeBegin out ≤
   count_line codeEnd out + 1) ∧
  (let out := Tutorial.outputFile
                (Tutorial.run blocks Tutorial.transducer0 (take n src)) in
   count_line codeEnd out ≤ count_line codeBegin out ≤
   count_line codeEnd out + 1).
Proof.
  intros H. apply (Forall_take _ n) in H. split.
  - pose proof (Impl_run_fences blocks _ H) as E. simpl in E. simpl. rewrite E.
    unfold Impl_open_fences.
    repeat (match goal with |- context [if ?c then _ else _] => destruct c end);
      lia.
  - destruct (Tutorial_run_fences blocks _ H) as [_ E]. simpl. rewrite E.
    unfold Tutorial_open_fences.
    repeat (match goal with |- context [if ?c then _ else _] => destruct c end);
      lia.
Qed.

Lemma fences_never_nest_witness :
  (let out := Impl.outputFile
                (Impl.run ∅ Impl.transducer0
                   (take 2 ["int x;"; "MD_BEGIN_HIDE"; "/// a"])) in
   count_line codeEnd out ≤ count_line codeBegin out ≤
   count_line codeEnd out + 1) ∧
  (let out := Tutorial.outputFile
                (Tutorial.run ∅ Tutorial.transducer0
                   (take 2 ["int x;"; "MD_BEGIN_HIDE"; "/// a"])) in
   count_line codeEnd out ≤ count_line codeBegin out ≤
   count_line codeEnd out + 1).
Proof.
  apply (fences_never_nest ∅ ["int x;"; "MD_BEGIN_HIDE"; "/// a"] 2).
  repeat constructor; by vm_compute.
Defined.

(** X19.  A key that the program output did not produce is no error: when
    no line of the source calls for a block of the table, the output is
    the output for the empty table, the text lines written as they are.
    Both variants. *)
Theorem missing_keys_pass_through blocks src :
  Forall (λ s, blocks !! Py.strip (Py.drop 4 s) = None) src →
  Impl.transduce blocks src = Impl.transduce ∅ src ∧
  Tutorial.transduce blocks src = Tutorial.transduce ∅ src.
Proof.
  intros H. split.
  - unfold Impl.transduce, Impl.run. f_equal. generalize Impl.transducer0.
    induction H as [|s src Hs H IH]; intros st; [done|]. simpl.
    by rewrite (Impl_step_no_key _ _ _ Hs), IH.
  - unfold Tutorial.transduce, Tutorial.run. f_equal.
    generalize Tutorial.transducer0.
    induction H as [|s src Hs H IH]; intros st; [done|]. simpl.
    by rewrite (Tutorial_step_no_key _ _ _ Hs), IH.
Qed.

Lemma missing_keys_pass_through_witness :
  Impl.transduce {[ "[out]" := ["x"] ]} ["/// [other]"; "int x;"] =
    Impl.transduce ∅ ["/// [other]"; "int x;"] ∧
  Tutorial.transduce {[ "[out]" := ["x"] ]} ["/// [other]"; "int x;"] =
    Tutorial.transduce ∅ ["/// [other]"; "int x;"].
Proof.
  apply (missing_keys_pass_through {[ "[out]" := ["x"] ]}
           ["/// [other]"; "int x;"]).
  repeat constructor.
Defined.

(** X20.  The table of two outputs one after the other.  When the second
    part begins with a delimiter line, the table of the whole program
    output is the table of the second part laid over the table of the
    first: a key of the second part has the block of the second part,
    every other key the block of the first ([docs/implementing-tutorial]). *)
Theorem table_of_concatenated_output l1 d l2 :
  Impl.isDelimiter d = true →
  Impl.parseOutput (l1 ++ d :: l2) =
  Impl.parseOutput (d :: l2) ∪ Impl.parseOutput l1.
Proof.
  intros Hd. unfold Impl.parseOutput.
  rewrite fold_left_app. simpl.
  rewrite !(parseLine_delim _ _ Hd).
  rewrite Impl_parse_over. f_equal.
Qed.

Lemma table_of_concatenated_output_witness :
  Impl.parseOutput (["# [a] #"; "1"; "# [b] #"; "2"] ++ "# [a] #" :: ["3"]) =
  Impl.parseOutput ("# [a] #" :: ["3"]) ∪
  Impl.parseOutput ["# [a] #"; "1"; "# [b] #"; "2"].
Proof.
  apply (table_of_concatenated_output ["# [a] #"; "1"; "# [b] #"; "2"]
           "# [a] #" ["3"]).
  reflexivity.
Defined.
